(** * wakis: example drivers of the FIT/FDTD wakefield solver

    A shallow embedding of the three driver scripts of the repository

      - [examples/003_MPI_wakefield_simulation.py]  (module [ScriptMPI])
      - [examples/script_cube_cav_fit.py]           (module [ScriptCube])
      - [examples/script_noeb_fit.py]               (module [ScriptNoeb])

    and of the solver core they drive (module [Core]).

    The scripts are closed Python programs over [int] and [float] values.
    Python integers are embedded as [Z]; Python floats are IEEE binary64 and
    are embedded as Rocq's primitive [float], so that every arithmetic
    expression of a script evaluates to the bit pattern Python computes.
    Exceptions are an explicit outcome, and the calls a script makes into
    [mpi4py] and the [wakis] package are recorded, in program order, in an
    event log.

    The classes behind those calls ([Field], [Grid3D], [SolverFIT3D],
    [EMSolver3D], [Beam]) are not among the repository sources; [Core]
    models them from the design document, over exact rationals.

    Layout: the models first ([Py], [ScriptMPI], [Numpy], [GridArgs],
    [ScriptCube], [ScriptNoeb], [Core], [Frames], [CavityLoops]), then
    their properties ([MPIFacts], [CavityFacts], [CoreFacts],
    [SourceFacts], [MPIMore], [LoopFacts]). *)

From Stdlib Require Import ZArith List Bool Lia Permutation.
From Stdlib Require Import PrimFloat Uint63 SpecFloat FloatOps.
From Stdlib Require Import String.
From Stdlib Require Import QArith Qround Qcanon Field.
From Stdlib Require Qcabs.
From Stdlib Require Ascii DecimalString DecimalZ.
Import ListNotations.

Set Implicit Arguments.

(* ================================================================== *)
(** * Python values, exceptions and arithmetic                         *)
(* ================================================================== *)

Module Py.

(** The exceptions the scripts can raise before or at their time loop. *)
Inductive exn : Set :=
| ZeroDivisionError
| TypeError
| IndexError.

Inductive outcome (A : Type) : Type :=
| Ok (a : A)
| Raise (e : exn).
Arguments Ok {A} a.
Arguments Raise {A} e.

Definition bind {A B} (m : outcome A) (k : A -> outcome B) : outcome B :=
  match m with
  | Ok a => k a
  | Raise e => Raise e
  end.

(** A number whose Python type is only known at run time. *)
Inductive pyval : Set :=
| PyInt (z : Z)
| PyFloat (f : float).

Definition is_float (v : pyval) : bool :=
  match v with PyFloat _ => true | PyInt _ => false end.

(** [float(n)] for an [int] below 2^63 in magnitude (every integer of the
    scripts is). *)
Definition float_of_Z (z : Z) : float :=
  match z with
  | Z0 => PrimFloat.zero
  | Zpos _ => PrimFloat.of_uint63 (Uint63.of_Z z)
  | Zneg _ => PrimFloat.opp (PrimFloat.of_uint63 (Uint63.of_Z (- z)))
  end.

Definition to_float (v : pyval) : float :=
  match v with
  | PyInt z => float_of_Z z
  | PyFloat f => f
  end.

(** [a + b], [a - b], [a * b]: integer when both operands are, float
    otherwise. *)
Definition add (a b : pyval) : pyval :=
  match a, b with
  | PyInt x, PyInt y => PyInt (x + y)
  | _, _ => PyFloat (PrimFloat.add (to_float a) (to_float b))
  end.

Definition sub (a b : pyval) : pyval :=
  match a, b with
  | PyInt x, PyInt y => PyInt (x - y)
  | _, _ => PyFloat (PrimFloat.sub (to_float a) (to_float b))
  end.

Definition mul (a b : pyval) : pyval :=
  match a, b with
  | PyInt x, PyInt y => PyInt (x * y)
  | _, _ => PyFloat (PrimFloat.mul (to_float a) (to_float b))
  end.

(** [int(f)] truncates a finite float towards zero (the scripts apply it to
    closed finite expressions only; [inf] and [nan], on which Python
    raises, are sent to [0]). *)
Definition int_of_float (f : float) : Z :=
  match Prim2SF f with
  | S754_finite s m e =>
      let v := if (0 <=? e)%Z then (Zpos m * 2 ^ e)%Z
               else (Zpos m / 2 ^ (- e))%Z in
      if s then (- v)%Z else v
  | _ => 0%Z
  end.

(** [a / b]: true division, always a float; a zero divisor raises.  (For
    integers beyond 2^53 Python rounds the exact quotient instead; none
    occurs here.) *)
Definition truediv (a b : pyval) : outcome pyval :=
  if PrimFloat.eqb (to_float b) PrimFloat.zero
  then Raise ZeroDivisionError
  else Ok (PyFloat (PrimFloat.div (to_float a) (to_float b))).

(** [a % b] and [a // b] on integers: floor semantics, the sign of the
    remainder follows the divisor, a zero divisor raises. *)
Definition mod_int (a b : Z) : outcome Z :=
  if (b =? 0)%Z then Raise ZeroDivisionError else Ok (a mod b)%Z.

Definition floordiv_int (a b : Z) : outcome Z :=
  if (b =? 0)%Z then Raise ZeroDivisionError else Ok (a / b)%Z.

(** [range(v)]: the integers [0 .. v-1]; anything but an [int] is a
    [TypeError] ("object cannot be interpreted as an integer"). *)
Definition range (v : pyval) : outcome (list Z) :=
  match v with
  | PyInt n => Ok (map Z.of_nat (seq 0 (Z.to_nat n)))
  | PyFloat _ => Raise TypeError
  end.

End Py.

Notation "x <- m ;; k" := (Py.bind m (fun x => k))
  (at level 61, m at next level, right associativity).

(* ================================================================== *)
(** * examples/003_MPI_wakefield_simulation.py                         *)
(* ================================================================== *)

Module ScriptMPI.
Import Py.

(** The calls on the MPI communicator that mpi4py offers and that matter
    here: the two queries the script makes, and the point-to-point
    transfers a ghost-layer exchange would be made of. *)
Inductive mpi_call : Set :=
| Get_rank
| Get_size
| Send (dest : Z)
| Recv (source : Z)
| Sendrecv (dest source : Z).

(** What the script does that is visible outside it, in program order. *)
Inductive event : Type :=
| EMPI (c : mpi_call)
| EPrintProcess (rank size : Z)
| EPrintRange (rank : Z) (zlo zhi : float)
| EGridFIT3D (xmin xmax ymin ymax zmin zmax : float) (Nx Ny Nz : Z)
| EWakeSolver
| ESolverFIT3D
| EBeam
| EUpdateMpi (t : pyval) (zmin : float) (z : list float)
| EOneStep.

Definition is_exchange (e : event) : bool :=
  match e with
  | EMPI (Send _) | EMPI (Recv _) | EMPI (Sendrecv _ _) => true
  | _ => false
  end.

Definition is_construction (e : event) : bool :=
  match e with
  | EGridFIT3D _ _ _ _ _ _ _ _ _ | EWakeSolver | ESolverFIT3D | EBeam => true
  | _ => false
  end.

Definition is_step (e : event) : bool :=
  match e with
  | EUpdateMpi _ _ _ | EOneStep => true
  | _ => false
  end.

(** A computation that logs events and may raise. *)
Definition M (A : Type) : Type := (list event * outcome A)%type.

Definition emit (e : event) : M unit := ([e], Ok tt).
Definition emits (l : list event) : M unit := (l, Ok tt).
Definition lift {A} (o : outcome A) : M A := ([], o).

Definition bindM {A B} (m : M A) (k : A -> M B) : M B :=
  match m with
  | (l, Ok a) => let (l', r) := k a in (l ++ l', r)
  | (l, Raise e) => (l, Raise e)
  end.

Notation "x <-- m ;; k" := (bindM m (fun x => k))
  (at level 61, m at next level, right associativity).
Notation "m ;;; k" := (bindM m (fun _ => k))
  (at level 61, right associativity).

(** What the script reads from outside: the communicator, the bounds of
    the solids read from the STL files, and the numeric attributes of the
    [SolverFIT3D] and [WakeSolver] objects that enter the step count. *)
Record env : Type := {
  size : Z;  rank : Z;
  xmin : float;  xmax : float;
  ymin : float;  ymax : float;
  zmin : float;  zmax : float;
  solver_dt : pyval;
  solver_z_max : pyval;  solver_z_min : pyval;
  wake_wakelength : pyval;  wake_ti : pyval;  wake_v : pyval
}.

(** Number of mesh cells. *)
Definition Nx : Z := 80.
Definition Ny : Z := 80.
Definition Nz : Z := 141.

(** [a / b] on two floats. *)
Definition truediv_float (a b : float) : outcome float :=
  if PrimFloat.eqb b PrimFloat.zero
  then Raise ZeroDivisionError
  else Ok (PrimFloat.div a b).

(** [np.linspace(start, stop, num)]: [arange(num) * step + start] with
    [step = (stop - start) / (num - 1)], the last sample set to [stop]. *)
Definition linspace (start stop : float) (num : Z) : list float :=
  let step := PrimFloat.div (PrimFloat.sub stop start) (float_of_Z (num - 1)) in
  let n := Z.to_nat num in
  map (fun k => PrimFloat.add (PrimFloat.mul (float_of_Z (Z.of_nat k)) step) start)
      (seq 0 (Nat.pred n))
  ++ (if (0 <? num)%Z then [stop] else []).

(** The values bound by lines 49-56. *)
Record domain : Type := {
  Nz_adj : Z;          (* [Nz] after [Nz += Nz%(size-1)] *)
  dz : float;
  z : list float;
  Nz_mpi : Z;
  zmin_mpi : float;
  zmax_mpi : float
}.

Definition domain_setup (size rank : Z) (zmin zmax : float) : outcome domain :=
  r <- mod_int Nz (size - 1) ;;
  let Nz := (Nz + r)%Z in
  dz <- truediv_float (PrimFloat.sub zmax zmin) (float_of_Z Nz) ;;
  let z := linspace zmin zmax (Nz + 1) in
  Nz_mpi <- floordiv_int Nz (size - 1) ;;
  let zmin_mpi := PrimFloat.mul (float_of_Z ((rank - 1) * Nz_mpi)) dz in
  let zmax_mpi := PrimFloat.mul (float_of_Z (rank * Nz_mpi)) dz in
  Ok {| Nz_adj := Nz; dz := dz; z := z; Nz_mpi := Nz_mpi;
        zmin_mpi := zmin_mpi; zmax_mpi := zmax_mpi |}.

(** Lines 61-79: rank 0 meshes the whole domain, every other rank its
    z-slice. *)
Definition make_grid (e : env) (d : domain) : event :=
  if (rank e =? 0)%Z
  then EGridFIT3D (xmin e) (xmax e) (ymin e) (ymax e) (zmin e) (zmax e)
                  Nx Ny (Nz_adj d)
  else EGridFIT3D (xmin e) (xmax e) (ymin e) (ymax e) (zmin_mpi d) (zmax_mpi d)
                  Nx Ny (Nz_mpi d).

(** Lines 151-152:
    [Nt = 1/solver.dt * (wake.wakelength + wake.ti*wake.v
                         + (solver.z.max()-solver.z.min()))/wake.v]. *)
Definition Nt (e : env) : outcome pyval :=
  inv_dt <- truediv (PyInt 1) (solver_dt e) ;;
  let len := add (add (wake_wakelength e) (mul (wake_ti e) (wake_v e)))
                 (sub (solver_z_max e) (solver_z_min e)) in
  truediv (mul inv_dt len) (wake_v e).

(** Lines 156-160, one iteration of the time loop.  Line 160 is the
    comment [#Communicate slices [TODO]]: nothing is executed there. *)
Definition loop_body (e : env) (d : domain) (n : Z) : list event :=
  [ EUpdateMpi (mul (PyInt n) (solver_dt e)) (zmin e) (z d);
    EOneStep ].

(** [for n in range(...): body], over the integers [ns] that [range]
    yields. *)
Definition time_loop (e : env) (d : domain) (ns : list Z) : list event :=
  flat_map (loop_body e d) ns.

(** The script up to the end of its time loop (the plots that follow
    read the wake results and do not touch the solver). *)
Definition script (e : env) : M unit :=
  emits [EMPI Get_rank; EMPI Get_size] ;;;
  emit (EPrintProcess (rank e) (size e)) ;;;
  d <-- lift (domain_setup (size e) (rank e) (zmin e) (zmax e)) ;;
  emit (EPrintRange (rank e) (zmin_mpi d) (zmax_mpi d)) ;;;
  emit (make_grid e d) ;;;
  emit EWakeSolver ;;;
  emit ESolverFIT3D ;;;
  emit EBeam ;;;
  nt <-- lift (Nt e) ;;
  ns <-- lift (range nt) ;;
  emits (time_loop e d ns).

(** Modelled from the spec: the ghost-layer exchange of the decomposition
    protocol, absent from the repository.  After every H/E update pair a
    rank sends its boundary-adjacent slice to, and receives the matching
    slice from, each neighbouring rank. *)
Definition protocol_body (e : env) (d : domain) (n : Z) : list event :=
  loop_body e d n
  ++ [ EMPI (Sendrecv (rank e - 1) (rank e - 1));
       EMPI (Sendrecv (rank e + 1) (rank e + 1)) ].

Definition protocol_loop (e : env) (d : domain) (ns : list Z) : list event :=
  flat_map (protocol_body e d) ns.

(** What the script has logged when it reaches its domain setup, and when
    it reaches its time loop. *)
Definition log_start (e : env) : list event :=
  [EMPI Get_rank; EMPI Get_size; EPrintProcess (rank e) (size e)].

Definition log_built (e : env) (d : domain) : list event :=
  log_start e
  ++ [EPrintRange (rank e) (zmin_mpi d) (zmax_mpi d); make_grid e d;
      EWakeSolver; ESolverFIT3D; EBeam].

(** The slice a rank is given: the adjusted global cell count, the local
    cell count, and the two ends of its z-range. *)
Definition slice_of (size rank : Z) (zmin zmax : float)
    : option (Z * Z * float * float) :=
  match domain_setup size rank zmin zmax with
  | Ok d => Some (Nz_adj d, Nz_mpi d, zmin_mpi d, zmax_mpi d)
  | Raise _ => None
  end.

(** The slices of the worker ranks [1 .. size-1], and the cells they hold
    in all. *)
Definition worker_slices (size : Z) (zmin zmax : float)
    : list (option (Z * Z * float * float)) :=
  map (fun r => slice_of size (Z.of_nat r) zmin zmax)
      (seq 1 (Z.to_nat (size - 1))).

Definition total_local_cells (l : list (option (Z * Z * float * float))) : Z :=
  fold_right (fun s acc => match s with
                           | Some (_, n, _, _) => (n + acc)%Z
                           | None => acc
                           end) 0%Z l.

(** Two sample environments: rank 1 of two processes, and a single
    process. *)
Definition env_two_ranks : env :=
  {| size := 2; rank := 1;
     xmin := 0; xmax := 1; ymin := 0; ymax := 1; zmin := 0; zmax := 1;
     solver_dt := PyFloat 0.5; solver_z_max := PyFloat 1;
     solver_z_min := PyFloat 0;
     wake_wakelength := PyFloat 10; wake_ti := PyFloat 1;
     wake_v := PyFloat 2 |}.

Definition env_one_rank : env :=
  {| size := 1; rank := 0;
     xmin := 0; xmax := 1; ymin := 0; ymax := 1; zmin := 0; zmax := 1;
     solver_dt := PyFloat 0.5; solver_z_max := PyFloat 1;
     solver_z_min := PyFloat 0;
     wake_wakelength := PyFloat 10; wake_ti := PyFloat 1;
     wake_v := PyFloat 2 |}.

(** The domain of rank 1 of two over the z-range [0, 1]. *)
Definition domain_two_ranks : domain :=
  match domain_setup 2 1 0 1 with
  | Ok d => d
  | Raise _ => {| Nz_adj := 0; dz := 0; z := [];
                  Nz_mpi := 0; zmin_mpi := 0;
                  zmax_mpi := 0 |}
  end.

(** Rank 7 of 284 processes. *)
Definition env_284 : env :=
  {| size := 284; rank := 7;
     xmin := 0; xmax := 1; ymin := 0; ymax := 1; zmin := 0; zmax := 1;
     solver_dt := PyFloat 0.5; solver_z_max := PyFloat 1;
     solver_z_min := PyFloat 0;
     wake_wakelength := PyFloat 10; wake_ti := PyFloat 1;
     wake_v := PyFloat 2 |}.

End ScriptMPI.

(* ================================================================== *)
(** * The numpy calls of the scripts                                   *)
(* ================================================================== *)

Module Numpy.

(** A three-dimensional [ndarray] of floats, its axes nested in order. *)
Definition ndarray : Type := list (list (list float)).

Definition map3 (f : float -> float) (a : ndarray) : ndarray :=
  map (map (map f)) a.

(** [np.ones_like(a)]: the shape of [a], every entry [1.0]. *)
Definition ones_like (a : ndarray) : ndarray :=
  map3 (fun _ => PrimFloat.one) a.

(** [a * s] for a scalar [s], broadcast over the entries. *)
Definition mul_scalar (a : ndarray) (s : float) : ndarray :=
  map3 (fun x => PrimFloat.mul x s) a.

(** [a[i, j, k]] for non-negative indices within the shape. *)
Definition get3 (a : ndarray) (i j k : nat) : option float :=
  match nth_error a i with
  | Some plane =>
      match nth_error plane j with
      | Some row => nth_error row k
      | None => None
      end
  | None => None
  end.

End Numpy.

(* ================================================================== *)
(** * Grid3D as the two cavity scripts use it                          *)
(* ================================================================== *)

Module GridArgs.

(** [conductors3d]: the only assembly the scripts build is
    [noConductor()]. *)
Inductive conductors : Set :=
| noConductor.

Inductive sol_type : Set :=
| FIT
| FDTD.

(** A [Grid3D] object, as far as the scripts see it: the arguments of the
    constructor call and the three face-area arrays. *)
Record Grid3D : Type := {
  xmin : float;  xmax : float;
  ymin : float;  ymax : float;
  zmin : float;  zmax : float;
  Nx : Z;  Ny : Z;  Nz : Z;
  conds : conductors;
  kind : sol_type;
  Sxy : Numpy.ndarray;
  Szx : Numpy.ndarray;
  Syz : Numpy.ndarray
}.

(** The face areas the constructor computes; the class body is not part
    of the repository sources, so they are whatever it produced. *)
Record areas : Type := {
  Sxy0 : Numpy.ndarray;
  Szx0 : Numpy.ndarray;
  Syz0 : Numpy.ndarray
}.

Definition Grid3D_init (built : areas)
    (xmin xmax ymin ymax zmin zmax : float) (Nx Ny Nz : Z)
    (c : conductors) (k : sol_type) : Grid3D :=
  {| xmin := xmin; xmax := xmax; ymin := ymin; ymax := ymax;
     zmin := zmin; zmax := zmax; Nx := Nx; Ny := Ny; Nz := Nz;
     conds := c; kind := k;
     Sxy := Sxy0 built; Szx := Szx0 built; Syz := Syz0 built |}.

(** Attribute assignment [g.Sxy = a], [g.Szx = a], [g.Syz = a]. *)
Definition set_Sxy (g : Grid3D) (a : Numpy.ndarray) : Grid3D :=
  {| xmin := xmin g; xmax := xmax g; ymin := ymin g; ymax := ymax g;
     zmin := zmin g; zmax := zmax g; Nx := Nx g; Ny := Ny g; Nz := Nz g;
     conds := conds g; kind := kind g;
     Sxy := a; Szx := Szx g; Syz := Syz g |}.

Definition set_Szx (g : Grid3D) (a : Numpy.ndarray) : Grid3D :=
  {| xmin := xmin g; xmax := xmax g; ymin := ymin g; ymax := ymax g;
     zmin := zmin g; zmax := zmax g; Nx := Nx g; Ny := Ny g; Nz := Nz g;
     conds := conds g; kind := kind g;
     Sxy := Sxy g; Szx := a; Syz := Syz g |}.

Definition set_Syz (g : Grid3D) (a : Numpy.ndarray) : Grid3D :=
  {| xmin := xmin g; xmax := xmax g; ymin := ymin g; ymax := ymax g;
     zmin := zmin g; zmax := zmax g; Nx := Nx g; Ny := Ny g; Nz := Nz g;
     conds := conds g; kind := kind g;
     Sxy := Sxy g; Szx := Szx g; Syz := a |}.

End GridArgs.

(** scipy.constants.c *)
Definition c_light : float := 299792458%float.

(* ================================================================== *)
(** * examples/script_cube_cav_fit.py                                  *)
(* ================================================================== *)

Module ScriptCube.
Import Py GridArgs.
Local Open Scope float_scope.

Definition L : float := 1.
(** Number of mesh cells *)
Definition N : Z := 25.
Definition Nx : Z := N.
Definition Ny : Z := N.
Definition Nz : Z := N.
Definition Lx : float := L.
Definition Ly : float := L.
Definition Lz : float := L.
Definition dx : float := L / float_of_Z Nx.
Definition dy : float := L / float_of_Z Ny.
Definition dz : float := L / float_of_Z Nz.

Definition xmin : float := - Lx / 2 + dx / 2.
Definition xmax : float := Lx / 2 + dx / 2.
Definition ymin : float := - Ly / 2 + dx / 2.
Definition ymax : float := Ly / 2 + dx / 2.
Definition zmin : float := - Lz / 2 + dx / 2.
Definition zmax : float := Lz / 2 + dx / 2.

Definition grid (built : areas) : Grid3D :=
  Grid3D_init built xmin xmax ymin ymax zmin zmax Nx Ny Nz noConductor FIT.

Definition NCFL : Z := 1.

(** Lines 52-55: the comparison grid, then its face areas overwritten:
    [gridFDTD.Sxy = np.ones_like(gridFDTD.Sxy)*dx*dy], and likewise
    [Szx] with [dx*dz] and [Syz] with [dz*dy]. *)
Definition gridFDTD (built : areas) : Grid3D :=
  let g := Grid3D_init built xmin xmax ymin ymax zmin zmax Nx Ny Nz
                       noConductor FDTD in
  let g := set_Sxy g
    (Numpy.mul_scalar (Numpy.mul_scalar (Numpy.ones_like (Sxy g)) dx) dy) in
  let g := set_Szx g
    (Numpy.mul_scalar (Numpy.mul_scalar (Numpy.ones_like (Szx g)) dx) dz) in
  let g := set_Syz g
    (Numpy.mul_scalar (Numpy.mul_scalar (Numpy.ones_like (Syz g)) dz) dy) in
  g.

(** Line 58: the cell and the value of the excitation
    [solver.E[int(Nx/2), int(Ny/2), int(Nz/2), 'z'] = 1.0*c_light]. *)
Definition seed_i : Z := int_of_float (float_of_Z Nx / 2).
Definition seed_j : Z := int_of_float (float_of_Z Ny / 2).
Definition seed_k : Z := int_of_float (float_of_Z Nz / 2).
Definition seed_value : float := 1.0 * c_light.

Definition Nt : Z := 1.

End ScriptCube.

(* ================================================================== *)
(** * examples/script_noeb_fit.py                                      *)
(* ================================================================== *)

Module ScriptNoeb.
Import Py GridArgs.
Local Open Scope float_scope.

Definition L : float := 1.
(** Number of mesh cells *)
Definition N : Z := 25.
Definition Nx : Z := N.
Definition Ny : Z := N.
Definition Nz : Z := N.
Definition Lx : float := L.
Definition Ly : float := L.
Definition Lz : float := L.
Definition dx : float := L / float_of_Z Nx.
Definition dy : float := L / float_of_Z Ny.
Definition dz : float := L / float_of_Z Nz.

Definition xmin : float := - Lx / 2 + dx / 2.
Definition xmax : float := Lx / 2 + dx / 2.
Definition ymin : float := - Ly / 2 + dx / 2.
Definition ymax : float := Ly / 2 + dx / 2.
Definition zmin : float := - Lz / 2 + dx / 2.
Definition zmax : float := Lz / 2 + dx / 2.

Definition NCFL : Z := 1.

(** Lines 46-47: the primary grid and the dual ("tilde") grid. *)
Definition gridFIT (built : areas) : Grid3D :=
  Grid3D_init built xmin xmax ymin ymax zmin zmax Nx Ny Nz noConductor FIT.

Definition tgridFIT (built : areas) : Grid3D :=
  Grid3D_init built (xmin + dx / 2) (xmax + dx / 2)
                    (ymin + dy / 2) (ymax + dy / 2)
                    (zmin + dz / 2) (zmax + dz / 2)
                    Nx Ny Nz noConductor FIT.

Definition gridFDTD (built : areas) : Grid3D :=
  Grid3D_init built xmin xmax ymin ymax zmin zmax Nx Ny Nz noConductor FDTD.

(** Line 54: [solverFIT.E[int(Nx//2), int(1*Ny/4), int(1*Nz/4), 'z']]. *)
Definition seed_i : Z := (Nx / 2)%Z.
Definition seed_j : Z := int_of_float (float_of_Z (1 * Ny) / 4).
Definition seed_k : Z := int_of_float (float_of_Z (1 * Nz) / 4).
Definition seed_value : float := 1.0 * c_light.

Definition Nt : Z := 50.

End ScriptNoeb.

(* ================================================================== *)
(** * The solver core the scripts drive                                *)
(* ================================================================== *)

(** The classes [Field], [Grid3D], [SolverFIT3D], [EMSolver3D] and [Beam]
    are imported by the scripts but their bodies are not among the
    repository sources.  They are modelled here from the design document,
    over exact rationals [Qc] in place of binary64, so that the algebra of
    the two discretisations can be compared. *)

Module Core.
Import Py.
Local Open Scope Qc_scope.
Local Open Scope Z_scope.

Definition QcZ (n : Z) : Qc := Q2Qc (inject_Z n).

Inductive axis : Set :=
| AX
| AY
| AZ.

(** Modelled from the spec: the axis labels of component access,
    ['x'], ['y'] and ['z']. *)
Definition axis_of_label (s : string) : option axis :=
  if String.eqb s "x" then Some AX
  else if String.eqb s "y" then Some AY
  else if String.eqb s "z" then Some AZ
  else None.

Record shape : Set := {
  Nx : Z;  Ny : Z;  Nz : Z
}.

Definition in_range (sh : shape) (i j k : Z) : bool :=
  (0 <=? i) && (i <? Nx sh) && (0 <=? j) && (j <? Ny sh)
  && (0 <=? k) && (k <? Nz sh).

(** One scalar array over the index space; what lies outside the shape is
    the ghost layer. *)
Definition array3 : Type := Z -> Z -> Z -> Qc.

Definition at_cell (i j k i' j' k' : Z) : bool :=
  (i' =? i) && (j' =? j) && (k' =? k).

Definition upd3 (a : array3) (i j k : Z) (v : Qc) : array3 :=
  fun i' j' k' => if at_cell i j k i' j' k' then v else a i' j' k'.

(** A read by the update stencils: a ghost cell reads as zero. *)
Definition rd (sh : shape) (a : array3) (i j k : Z) : Qc :=
  if in_range sh i j k then a i j k else 0%Qc.

(** Modelled from the spec: the [Field] class, three scalar components
    over the grid's index space, zero-initialised. *)
Record Field : Type := {
  dims : shape;
  comp : axis -> array3
}.

(** Modelled from the spec: a field as allocated at solver construction,
    zero everywhere. *)
Definition zeros (sh : shape) : Field :=
  {| dims := sh; comp := fun _ _ _ _ => 0%Qc |}.

(** Modelled from the spec: [Field.__getitem__], indexed read of one
    scalar component at a grid coordinate and axis label; an out-of-range
    coordinate or an unknown label is a reported error. *)
Definition getitem (F : Field) (i j k : Z) (label : string) : outcome Qc :=
  match axis_of_label label with
  | None => Raise IndexError
  | Some a =>
      if in_range (dims F) i j k then Ok (comp F a i j k)
      else Raise IndexError
  end.

(** Modelled from the spec: [Field.__setitem__], indexed write of one
    scalar component, with the same errors as the read. *)
Definition setitem (F : Field) (i j k : Z) (label : string) (v : Qc)
    : outcome Field :=
  match axis_of_label label with
  | None => Raise IndexError
  | Some a =>
      if in_range (dims F) i j k
      then Ok {| dims := dims F;
                 comp := fun a' => match a, a' with
                                   | AX, AX | AY, AY | AZ, AZ =>
                                       upd3 (comp F a') i j k v
                                   | _, _ => comp F a'
                                   end |}
      else Raise IndexError
  end.

(** [a[i, j, k] = v] on a plain numpy array of the given shape: a negative
    index counts from the end, anything else outside the shape raises. *)
Definition norm_index (n i : Z) : option Z :=
  if (0 <=? i) && (i <? n) then Some i
  else if (- n <=? i) && (i <? 0) then Some (i + n)
  else None.

Definition ndarray_setitem (sh : shape) (a : array3) (i j k : Z) (v : Qc)
    : outcome array3 :=
  match norm_index (Nx sh) i, norm_index (Ny sh) j, norm_index (Nz sh) k with
  | Some i', Some j', Some k' => Ok (upd3 a i' j' k' v)
  | _, _, _ => Raise IndexError
  end.

(** Modelled from the spec: the geometry a [Grid3D] holds: bounding box,
    cell counts, and per-element edge lengths and face areas, which an
    embedded conductor may cut below their nominal values. *)
Record Grid : Type := {
  xmin : Qc;  xmax : Qc;
  ymin : Qc;  ymax : Qc;
  zmin : Qc;  zmax : Qc;
  cells : shape;
  Lx : array3;  Ly : array3;  Lz : array3;
  Sxy : array3;  Syz : array3;  Szx : array3
}.

Definition dx (g : Grid) : Qc := ((xmax g - xmin g) / QcZ (Nx (cells g)))%Qc.
Definition dy (g : Grid) : Qc := ((ymax g - ymin g) / QcZ (Ny (cells g)))%Qc.
Definition dz (g : Grid) : Qc := ((zmax g - zmin g) / QcZ (Nz (cells g)))%Qc.

(** Zero conductor cut: every edge has its full length and every face its
    nominal area. *)
Definition uncut (g : Grid) : Prop :=
  forall i j k,
    Lx g i j k = dx g /\ Ly g i j k = dy g /\ Lz g i j k = dz g /\
    Sxy g i j k = (dx g * dy g)%Qc /\
    Syz g i j k = (dy g * dz g)%Qc /\
    Szx g i j k = (dz g * dx g)%Qc.

(** The dual grid of [g]: same cell counts, every bound half a cell up. *)
Definition tilde_of (g tg : Grid) : Prop :=
  cells tg = cells g /\
  xmin tg = (xmin g + dx g / QcZ 2)%Qc /\ xmax tg = (xmax g + dx g / QcZ 2)%Qc /\
  ymin tg = (ymin g + dy g / QcZ 2)%Qc /\ ymax tg = (ymax g + dy g / QcZ 2)%Qc /\
  zmin tg = (zmin g + dz g / QcZ 2)%Qc /\ zmax tg = (zmax g + dz g / QcZ 2)%Qc.

(** Modelled from the spec: the resolved per-element material table
    (absolute permittivity, permeability and conductivity). *)
Record Material : Type := {
  eps : array3;
  mu : array3;
  sigma : array3
}.

(** Modelled from the spec: one lossless material throughout (vacuum
    when [eps0], [mu0] are the vacuum constants). *)
Definition uniform (eps0 mu0 : Qc) : Material :=
  {| eps := fun _ _ _ => eps0; mu := fun _ _ _ => mu0;
     sigma := fun _ _ _ => 0%Qc |}.

(** Modelled from the spec: the PEC boundary condition, the E components
    tangential to a low boundary face forced to zero (the high faces lie
    in the ghost layer, which reads as zero). *)
Definition pec (e : axis -> array3) : axis -> array3 :=
  fun a i j k =>
    match a with
    | AX => if (j =? 0) || (k =? 0) then 0%Qc else e AX i j k
    | AY => if (i =? 0) || (k =? 0) then 0%Qc else e AY i j k
    | AZ => if (i =? 0) || (j =? 0) then 0%Qc else e AZ i j k
    end.

(** The "voltage" along an edge: the field component times the (possibly
    cut) edge length. *)
Definition volt (sh : shape) (L e : array3) (i j k : Z) : Qc :=
  (rd sh e i j k * L i j k)%Qc.

(** Modelled from the spec: the discrete curl of E in integral form, the
    circulation of E around a face of the primary grid over the (possibly
    cut) area of that face. *)
Definition curl_E (g : Grid) (e : axis -> array3) (a : axis) (i j k : Z) : Qc :=
  let sh := cells g in
  match a with
  | AX => (((volt sh (Lz g) (e AZ) i (j + 1) k - volt sh (Lz g) (e AZ) i j k)
            - (volt sh (Ly g) (e AY) i j (k + 1) - volt sh (Ly g) (e AY) i j k))
           / Syz g i j k)%Qc
  | AY => (((volt sh (Lx g) (e AX) i j (k + 1) - volt sh (Lx g) (e AX) i j k)
            - (volt sh (Lz g) (e AZ) (i + 1) j k - volt sh (Lz g) (e AZ) i j k))
           / Szx g i j k)%Qc
  | AZ => (((volt sh (Ly g) (e AY) (i + 1) j k - volt sh (Ly g) (e AY) i j k)
            - (volt sh (Lx g) (e AX) i (j + 1) k - volt sh (Lx g) (e AX) i j k))
           / Sxy g i j k)%Qc
  end.

(** Modelled from the spec: the discrete curl of H, the circulation of H
    around a face of the dual grid over the area of that face. *)
Definition curl_H (tg : Grid) (h : axis -> array3) (a : axis) (i j k : Z) : Qc :=
  let sh := cells tg in
  match a with
  | AX => (((volt sh (Lz tg) (h AZ) i j k - volt sh (Lz tg) (h AZ) i (j - 1) k)
            - (volt sh (Ly tg) (h AY) i j k - volt sh (Ly tg) (h AY) i j (k - 1)))
           / Syz tg i j k)%Qc
  | AY => (((volt sh (Lx tg) (h AX) i j k - volt sh (Lx tg) (h AX) i j (k - 1))
            - (volt sh (Lz tg) (h AZ) i j k - volt sh (Lz tg) (h AZ) (i - 1) j k))
           / Szx tg i j k)%Qc
  | AZ => (((volt sh (Ly tg) (h AY) i j k - volt sh (Ly tg) (h AY) (i - 1) j k)
            - (volt sh (Lx tg) (h AX) i j k - volt sh (Lx tg) (h AX) i (j - 1) k))
           / Sxy tg i j k)%Qc
  end.

(** Modelled from the spec: the state a [SolverFIT3D] owns: the grid and
    its dual, the material table, the time step, the field arrays E, H and
    J, and the step count and elapsed time. *)
Record SolverFIT3D : Type := {
  grid : Grid;
  tgrid : Grid;
  mat : Material;
  dt : Qc;
  E : Field;
  H : Field;
  J : Field;
  nstep : Z;
  time : Qc
}.

(** Modelled from the spec: solver construction, the field arrays sized
    to the grid and zero-initialised, the clock at zero.  The time step,
    which the solver derives from the CFL bound (a square root), is taken
    as given. *)
Definition SolverFIT3D_init (g tg : Grid) (m : Material) (dt : Qc)
    : SolverFIT3D :=
  {| grid := g; tgrid := tg; mat := m; dt := dt;
     E := zeros (cells g); H := zeros (cells g); J := zeros (cells g);
     nstep := 0; time := 0%Qc |}.

(** Modelled from the spec: step 1 of [one_step], H from the discrete curl
    of E scaled by -dt/mu over the (possibly cut) face area. *)
Definition update_H (s : SolverFIT3D) : axis -> array3 :=
  fun a i j k =>
    if in_range (cells (grid s)) i j k
    then (comp (H s) a i j k
          - dt s / mu (mat s) i j k * curl_E (grid s) (comp (E s)) a i j k)%Qc
    else comp (H s) a i j k.

(** Modelled from the spec: steps 2 and 3 of [one_step], the boundary
    condition on E, then E from the discrete curl of the updated H scaled by
    dt/eps, minus the conduction loss, minus the injected current. *)
Definition update_E (s : SolverFIT3D) (h' : axis -> array3) : axis -> array3 :=
  let eb := pec (comp (E s)) in
  fun a i j k =>
    if in_range (cells (grid s)) i j k
    then (eb a i j k
          + dt s / eps (mat s) i j k * curl_H (tgrid s) h' a i j k
          - dt s * sigma (mat s) i j k / eps (mat s) i j k * eb a i j k
          - dt s / eps (mat s) i j k * comp (J s) a i j k)%Qc
    else comp (E s) a i j k.

(** Modelled from the spec: [SolverFIT3D.one_step], one leapfrog pair
    followed by the clock (step 4). *)
Definition one_step (s : SolverFIT3D) : SolverFIT3D :=
  let h' := update_H s in
  let e' := update_E s h' in
  {| grid := grid s; tgrid := tgrid s; mat := mat s; dt := dt s;
     E := {| dims := dims (E s); comp := e' |};
     H := {| dims := dims (H s); comp := h' |};
     J := J s;
     nstep := nstep s + 1;
     time := (time s + dt s)%Qc |}.

(** [solver.E[i, j, k, label] = v] *)
Definition seed_E (s : SolverFIT3D) (i j k : Z) (label : string) (v : Qc)
    : outcome SolverFIT3D :=
  F <- setitem (E s) i j k label v ;;
  Ok {| grid := grid s; tgrid := tgrid s; mat := mat s; dt := dt s;
        E := F; H := H s; J := J s; nstep := nstep s; time := time s |}.

(** Modelled from the spec: the state of the full-cell [EMSolver3D], one
    numpy array per field component. *)
Record EMSolver3D : Type := {
  gridD : Grid;
  matD : Material;
  dtD : Qc;
  Ex : array3;  Ey : array3;  Ez : array3;
  Hx : array3;  Hy : array3;  Hz : array3;
  Jx : array3;  Jy : array3;  Jz : array3;
  nstepD : Z;
  timeD : Qc
}.

Definition pack (x y z : array3) : axis -> array3 :=
  fun a => match a with AX => x | AY => y | AZ => z end.

Definition ED (s : EMSolver3D) : axis -> array3 := pack (Ex s) (Ey s) (Ez s).
Definition HD (s : EMSolver3D) : axis -> array3 := pack (Hx s) (Hy s) (Hz s).
Definition JD (s : EMSolver3D) : axis -> array3 := pack (Jx s) (Jy s) (Jz s).

(** Modelled from the spec: construction of the full-cell solver, all
    arrays zero, the clock at zero. *)
Definition EMSolver3D_init (g : Grid) (m : Material) (dt : Qc) : EMSolver3D :=
  let z : array3 := fun _ _ _ => 0%Qc in
  {| gridD := g; matD := m; dtD := dt;
     Ex := z; Ey := z; Ez := z; Hx := z; Hy := z; Hz := z;
     Jx := z; Jy := z; Jz := z; nstepD := 0; timeD := 0%Qc |}.

(** Modelled from the spec: the full-cell curl of E, forward differences
    over the nominal cell sizes (every face area taken as uncut). *)
Definition diff_E (g : Grid) (e : axis -> array3) (a : axis) (i j k : Z) : Qc :=
  let sh := cells g in
  match a with
  | AX => ((rd sh (e AZ) i (j + 1) k - rd sh (e AZ) i j k) / dy g
           - (rd sh (e AY) i j (k + 1) - rd sh (e AY) i j k) / dz g)%Qc
  | AY => ((rd sh (e AX) i j (k + 1) - rd sh (e AX) i j k) / dz g
           - (rd sh (e AZ) (i + 1) j k - rd sh (e AZ) i j k) / dx g)%Qc
  | AZ => ((rd sh (e AY) (i + 1) j k - rd sh (e AY) i j k) / dx g
           - (rd sh (e AX) i (j + 1) k - rd sh (e AX) i j k) / dy g)%Qc
  end.

(** Modelled from the spec: the full-cell curl of H, backward differences
    over the nominal cell sizes. *)
Definition diff_H (g : Grid) (h : axis -> array3) (a : axis) (i j k : Z) : Qc :=
  let sh := cells g in
  match a with
  | AX => ((rd sh (h AZ) i j k - rd sh (h AZ) i (j - 1) k) / dy g
           - (rd sh (h AY) i j k - rd sh (h AY) i j (k - 1)) / dz g)%Qc
  | AY => ((rd sh (h AX) i j k - rd sh (h AX) i j (k - 1)) / dz g
           - (rd sh (h AZ) i j k - rd sh (h AZ) (i - 1) j k) / dx g)%Qc
  | AZ => ((rd sh (h AY) i j k - rd sh (h AY) (i - 1) j k) / dx g
           - (rd sh (h AX) i j k - rd sh (h AX) i (j - 1) k) / dy g)%Qc
  end.

(** Modelled from the spec: step 1 of the FDTD [one_step], H from the
    finite-difference curl of E scaled by -dt/mu. *)
Definition update_H_FDTD (s : EMSolver3D) : axis -> array3 :=
  fun a i j k =>
    if in_range (cells (gridD s)) i j k
    then (HD s a i j k
          - dtD s / mu (matD s) i j k * diff_E (gridD s) (ED s) a i j k)%Qc
    else HD s a i j k.

(** Modelled from the spec: steps 2 and 3 of the FDTD [one_step], the
    boundary condition, then E from the finite-difference curl of the
    updated H, the conduction loss and the injected current. *)
Definition update_E_FDTD (s : EMSolver3D) (h' : axis -> array3)
    : axis -> array3 :=
  let eb := pec (ED s) in
  fun a i j k =>
    if in_range (cells (gridD s)) i j k
    then (eb a i j k
          + dtD s / eps (matD s) i j k * diff_H (gridD s) h' a i j k
          - dtD s * sigma (matD s) i j k / eps (matD s) i j k * eb a i j k
          - dtD s / eps (matD s) i j k * JD s a i j k)%Qc
    else ED s a i j k.

(** Modelled from the spec: [EMSolver3D.one_step] in its FDTD variant,
    the same leapfrog pair on full Yee cells. *)
Definition one_step_FDTD (s : EMSolver3D) : EMSolver3D :=
  let h' := update_H_FDTD s in
  let e' := update_E_FDTD s h' in
  {| gridD := gridD s; matD := matD s; dtD := dtD s;
     Ex := e' AX; Ey := e' AY; Ez := e' AZ;
     Hx := h' AX; Hy := h' AY; Hz := h' AZ;
     Jx := Jx s; Jy := Jy s; Jz := Jz s;
     nstepD := nstepD s + 1;
     timeD := (timeD s + dtD s)%Qc |}.

(** [solverFDTD.Ez[i, j, k] = v] *)
Definition seed_Ez (s : EMSolver3D) (i j k : Z) (v : Qc) : outcome EMSolver3D :=
  a <- ndarray_setitem (cells (gridD s)) (Ez s) i j k v ;;
  Ok {| gridD := gridD s; matD := matD s; dtD := dtD s;
        Ex := Ex s; Ey := Ey s; Ez := a;
        Hx := Hx s; Hy := Hy s; Hz := Hz s;
        Jx := Jx s; Jy := Jy s; Jz := Jz s;
        nstepD := nstepD s; timeD := timeD s |}.

(** [n] calls of [one_step()]. *)
Definition steps (n : nat) (s : SolverFIT3D) : SolverFIT3D :=
  Nat.iter n one_step s.

Definition steps_FDTD (n : nat) (s : EMSolver3D) : EMSolver3D :=
  Nat.iter n one_step_FDTD s.

(** Modelled from the spec: the grid [Grid3D] builds for [noConductor()],
    where nothing is cut: every edge has the cell size as its length and
    every face the nominal area. *)
Definition Grid3D_noConductor (xmin xmax ymin ymax zmin zmax : Qc)
    (Nx Ny Nz : Z) : Grid :=
  let ddx := ((xmax - xmin) / QcZ Nx)%Qc in
  let ddy := ((ymax - ymin) / QcZ Ny)%Qc in
  let ddz := ((zmax - zmin) / QcZ Nz)%Qc in
  {| xmin := xmin; xmax := xmax; ymin := ymin; ymax := ymax;
     zmin := zmin; zmax := zmax;
     cells := {| Nx := Nx; Ny := Ny; Nz := Nz |};
     Lx := fun _ _ _ => ddx; Ly := fun _ _ _ => ddy; Lz := fun _ _ _ => ddz;
     Sxy := fun _ _ _ => (ddx * ddy)%Qc;
     Syz := fun _ _ _ => (ddy * ddz)%Qc;
     Szx := fun _ _ _ => (ddz * ddx)%Qc |}.

(** The grids of the two cavity scripts, for a cube of side [L] with [N]
    cells a side: [xmin = -L/2 + dx/2], [xmax = L/2 + dx/2] and so on, and
    the dual grid every bound of which is [dx/2] further. *)
Definition cavity_grid (L : Qc) (N : Z) : Grid :=
  let d := (L / QcZ N)%Qc in
  let lo := (- L / QcZ 2 + d / QcZ 2)%Qc in
  let hi := (L / QcZ 2 + d / QcZ 2)%Qc in
  Grid3D_noConductor lo hi lo hi lo hi N N N.

Definition cavity_tgrid (L : Qc) (N : Z) : Grid :=
  let d := (L / QcZ N)%Qc in
  let lo := (- L / QcZ 2 + d / QcZ 2)%Qc in
  let hi := (L / QcZ 2 + d / QcZ 2)%Qc in
  Grid3D_noConductor (lo + d / QcZ 2) (hi + d / QcZ 2)
                     (lo + d / QcZ 2) (hi + d / QcZ 2)
                     (lo + d / QcZ 2) (hi + d / QcZ 2) N N N.

(** script_cube_cav_fit.py, lines 47-58: the FIT solver on the cube, E_z
    at the centre cell set to [A]. *)
Definition cube_seeded (L eps0 mu0 dt A : Qc) : outcome SolverFIT3D :=
  seed_E (SolverFIT3D_init (cavity_grid L ScriptCube.N)
                           (cavity_tgrid L ScriptCube.N)
                           (uniform eps0 mu0) dt)
         ScriptCube.seed_i ScriptCube.seed_j ScriptCube.seed_k "z" A.

(** A face of the primary grid: the axis it is normal to (the H component
    it carries) and its cell. *)
Definition face : Set := (axis * (Z * Z * Z))%type.

Definition H_at (s : SolverFIT3D) (f : face) : Qc :=
  let '(a, (i, j, k)) := f in comp (H s) a i j k.

(** The faces that share the z-directed edge of cell [(i, j, k)]: two
    normal to x, two normal to y. *)
Definition faces_at_z_edge (i j k : Z) : list face :=
  [ (AX, (i, j, k)); (AX, (i, j - 1, k));
    (AY, (i, j, k)); (AY, (i - 1, j, k)) ].

(** ** The beam source *)

(** scipy.constants.c, as an exact rational. *)
Definition c_lightQ : Qc := QcZ 299792458.

(** The parameters the [Beam] constructor takes, and its injection-time
    offset. *)
Record Beam : Type := {
  q : Qc;
  sigmaz : Qc;
  beta : Qc;
  xsource : Qc;
  ysource : Qc;
  ti : Qc
}.

(** The cell of a uniform axis that holds coordinate [x]. *)
Definition cell_index (lo d x : Qc) : Z := Qfloor ((x - lo) / d)%Qc.

Section BeamSource.

(** The longitudinal Gaussian of RMS length [sigmaz], evaluated at a
    longitudinal offset; it needs the exponential, which the rationals do
    not have, so it is a parameter of the model. *)
Variable profile : Qc -> Qc -> Qc.

(** Modelled from the spec: the current density of [Beam], from the bunch
    charge, RMS length, beta and the absolute time, at a longitudinal grid
    offset. *)
Definition current (b : Beam) (g : Grid) (t zmin zk : Qc) : Qc :=
  let v := (beta b * c_lightQ)%Qc in
  (q b * v * profile (sigmaz b) ((zk - zmin) - v * (t - ti b))
   / (dx g * dy g))%Qc.

(** Modelled from the spec: [Beam.update_mpi(solver, t, zmin, z)], which
    writes the current into the z component of J along the line of cells at
    the transverse offset of the source. *)
Definition update_mpi (b : Beam) (s : SolverFIT3D) (t zmin : Qc) (z : list Qc)
    : SolverFIT3D :=
  let g := grid s in
  let ixs := cell_index (xmin g) (dx g) (xsource b) in
  let iys := cell_index (ymin g) (dy g) (ysource b) in
  let jz : array3 := fun i j k =>
    if (i =? ixs) && (j =? iys) && in_range (cells g) i j k
    then current b g t zmin (nth (Z.to_nat k) z 0%Qc)
    else comp (J s) AZ i j k in
  {| grid := grid s; tgrid := tgrid s; mat := mat s; dt := dt s;
     E := E s; H := H s;
     J := {| dims := dims (J s);
             comp := fun a => match a with
                              | AZ => jz
                              | _ => comp (J s) a
                              end |};
     nstep := nstep s; time := time s |}.

End BeamSource.

Local Open Scope Qc_scope.

(** The two grids cover the same box with the same cells. *)
Definition same_box (g gD : Grid) : Prop :=
  cells gD = cells g /\
  xmin gD = xmin g /\ xmax gD = xmax g /\
  ymin gD = ymin g /\ ymax gD = ymax g /\
  zmin gD = zmin g /\ zmax gD = zmax g.

(** A bounding box with [min < max] on every axis and at least one cell
    along each. *)
Definition wellformed (g : Grid) : Prop :=
  xmin g < xmax g /\ ymin g < ymax g /\ zmin g < zmax g /\
  (0 < Nx (cells g))%Z /\ (0 < Ny (cells g))%Z /\ (0 < Nz (cells g))%Z.

(** The two solver states hold the same data. *)
Record sim (sF : SolverFIT3D) (sD : EMSolver3D) : Prop := {
  sim_box : same_box (grid sF) (gridD sD);
  sim_mat : mat sF = matD sD;
  sim_dt : dt sF = dtD sD;
  sim_E : forall a i j k, comp (E sF) a i j k = ED sD a i j k;
  sim_H : forall a i j k, comp (H sF) a i j k = HD sD a i j k;
  sim_J : forall a i j k, comp (J sF) a i j k = JD sD a i j k;
  sim_n : nstep sF = nstepD sD;
  sim_t : time sF = timeD sD
}.

(** The FIT solver stands on an uncut primary grid and its uncut dual. *)
Definition good (sF : SolverFIT3D) : Prop :=
  uncut (grid sF) /\ uncut (tgrid sF) /\ tilde_of (grid sF) (tgrid sF) /\
  wellformed (grid sF).

(** script_noeb_fit.py at [L = 1], [N = 25], unit materials, [dt = 1/100],
    the seed of line 54 with a unit amplitude. *)
Definition noeb_FIT : SolverFIT3D :=
  match seed_E (SolverFIT3D_init (cavity_grid (QcZ 1) ScriptNoeb.N)
                                 (cavity_tgrid (QcZ 1) ScriptNoeb.N)
                                 (uniform (QcZ 1) (QcZ 1))
                                 (QcZ 1 / QcZ 100))
               ScriptNoeb.seed_i ScriptNoeb.seed_j ScriptNoeb.seed_k
               "z" (QcZ 1) with
  | Ok s => s
  | Raise _ => SolverFIT3D_init (cavity_grid (QcZ 1) ScriptNoeb.N)
                                (cavity_tgrid (QcZ 1) ScriptNoeb.N)
                                (uniform (QcZ 1) (QcZ 1)) (QcZ 1 / QcZ 100)
  end.

Definition noeb_FDTD : EMSolver3D :=
  match seed_Ez (EMSolver3D_init (cavity_grid (QcZ 1) ScriptNoeb.N)
                                 (uniform (QcZ 1) (QcZ 1))
                                 (QcZ 1 / QcZ 100))
                ScriptNoeb.seed_i ScriptNoeb.seed_j ScriptNoeb.seed_k
                (QcZ 1) with
  | Ok s => s
  | Raise _ => EMSolver3D_init (cavity_grid (QcZ 1) ScriptNoeb.N)
                               (uniform (QcZ 1) (QcZ 1)) (QcZ 1 / QcZ 100)
  end.

Definition kron (b : bool) : Qc := if b then 1 else 0.

(** The value of H the cube script reaches after its one step, face by
    face. *)
Definition cube_H (L mu0 dt0 A : Qc) (f : face) : Qc :=
  let c := dt0 / mu0 / (L / QcZ 25) * A in
  match f with
  | (AX, (i, j, k)) =>
      if at_cell 12 12 12 i j k then c
      else if at_cell 12 11 12 i j k then - c else 0
  | (AY, (i, j, k)) =>
      if at_cell 12 12 12 i j k then - c
      else if at_cell 11 12 12 i j k then c else 0
  | (AZ, _) => 0
  end.

(** scipy.constants: [mu_0] and [epsilon_0] as exact rationals. *)
Definition mu_0Q : Qc := QcZ 125663706212 / QcZ (10 ^ 17).
Definition eps_0Q : Qc := QcZ 88541878128 / QcZ (10 ^ 22).

(** The cube script with SI vacuum, [L = 1], [A = 1.0*c_light] and a time
    step of 7e-11 s. *)
Definition cube_run : outcome SolverFIT3D :=
  cube_seeded (QcZ 1) eps_0Q mu_0Q (QcZ 7 / QcZ (10 ^ 11)) c_lightQ.

(** A beam on the axis of the unit cavity grid, a rational bump for its
    profile, and a solver that has not stepped yet. *)
Definition bump (sigmaz s : Qc) : Qc :=
  (QcZ 1 / (QcZ 1 + (s / sigmaz) * (s / sigmaz)))%Qc.

Definition beam_on_axis : Beam :=
  {| q := QcZ 1; sigmaz := (QcZ 1 / QcZ 10)%Qc;
     beta := QcZ 1;
     xsource := QcZ 0; ysource := QcZ 0;
     ti := QcZ 0 |}.

Definition solver_at_rest : SolverFIT3D :=
  SolverFIT3D_init (cavity_grid (QcZ 1) 25)
                        (cavity_tgrid (QcZ 1) 25)
                        (uniform (QcZ 1) (QcZ 1))
                        (QcZ 1 / QcZ 100)%Qc.

End Core.

(* ================================================================== *)
(** * The plotting loops of the two cavity scripts                     *)
(* ================================================================== *)

Module Frames.
Import Ascii.
Local Open Scope string_scope.

(** [str(n)] for an [int]: its decimal digits, a leading ['-'] when
    negative. *)
Definition str (n : Z) : string :=
  DecimalString.NilZero.string_of_int (Z.to_int n).

Fixpoint zeros (k : nat) : string :=
  match k with
  | O => ""
  | S k => String "0"%char (zeros k)
  end.

Definition is_sign (c : Ascii.ascii) : bool :=
  Ascii.eqb c "+"%char || Ascii.eqb c "-"%char.

(** [s.zfill(width)]: [s] itself when it is at least [width] long, else
    padded with zeros on the left, after the sign if it has one. *)
Definition zfill (s : string) (width : nat) : string :=
  if (width <=? String.length s)%nat then s
  else
    let fill := zeros (width - String.length s) in
    match s with
    | String c rest => if is_sign c then String c (fill ++ rest) else fill ++ s
    | EmptyString => fill
    end.

(** [dir + str(n).zfill(4) + '.png'], the file a frame is saved to. *)
Definition frame (dir : string) (n : Z) : string :=
  dir ++ zfill (str n) 4 ++ ".png".

(** The number a string of decimal digits stands for. *)
Definition value (s : string) : option Z :=
  option_map Z.of_uint (DecimalString.NilEmpty.uint_of_string s).

End Frames.

Module CavityLoops.
Import Py.
Local Open Scope string_scope.
Local Open Scope list_scope.

Inductive solver_id : Set :=
| FIT_solver
| FDTD_solver.

Inductive field_id : Set :=
| field_E
| field_H.

(** What a script does in its time loop, in program order: a solver
    step, an [imshow] of a component of a field of one of the solvers, a
    figure saved to a path. *)
Inductive event : Set :=
| EStep (s : solver_id)
| EImshow (s : solver_id) (f : field_id) (component : string)
| ESavefig (path : string).

(** [dims = {0:'x', 1:'y', 2:'z'}] and the lookup [dims[i]]; a missing key
    raises, which is [None] here. *)
Definition dims : list (Z * string) := [(0, "x"); (1, "y"); (2, "z")]%Z.

Fixpoint lookup (d : list (Z * string)) (k : Z) : option string :=
  match d with
  | [] => None
  | (k', v) :: d => if (k =? k')%Z then Some v else lookup d k
  end.

(** [for i, ax in enumerate(axs[0,:]): ax.imshow(solverFIT.F[x, y, z, dims[i]])]
    over the three axes of the upper row of [plt.subplots(2,3)]. *)
Fixpoint FIT_row (f : field_id) (cols : list Z) : option (list event) :=
  match cols with
  | [] => Some []
  | i :: cols =>
      match lookup dims i, FIT_row f cols with
      | Some l, Some rest => Some (EImshow FIT_solver f l :: rest)
      | _, _ => None
      end
  end.

(** The lower row: [solverFDTD.Fx], [Fy], [Fz] in turn. *)
Definition FDTD_row (f : field_id) : list event :=
  [EImshow FDTD_solver f "x"; EImshow FDTD_solver f "y";
   EImshow FDTD_solver f "z"].


(** script_noeb_fit.py, lines 102-137. *)
Definition plot_H_field (n : Z) : option (list event) :=
  match FIT_row field_H [0; 1; 2]%Z with
  | Some row =>
      Some (row ++ FDTD_row field_H ++ [ESavefig (Frames.frame "imgH/" n)])
  | None => None
  end.

(** [for n in ...: body(n)], stopping at the first iteration that
    raises. *)
Fixpoint for_each (body : Z -> option (list event)) (ns : list Z)
    : option (list event) :=
  match ns with
  | [] => Some []
  | n :: ns =>
      match body n with
      | Some l =>
          match for_each body ns with
          | Some rest => Some (l ++ rest)
          | None => None
          end
      | None => None
      end
  end.



(** script_cube_cav_fit.py, lines 63-86: both solvers step, then the z
    components of the two E fields are shown side by side and saved. *)
Definition cube_body (n : Z) : option (list event) :=
  Some [ EStep FIT_solver; EStep FDTD_solver;
         EImshow FIT_solver field_E "z"; EImshow FDTD_solver field_E "z";
         ESavefig (Frames.frame "img/" n) ].

Definition cube_loop (Nt : Z) : option (list event) :=
  match range (PyInt Nt) with
  | Ok ns => for_each cube_body ns
  | Raise _ => None
  end.

Definition is_step_of (s : solver_id) (e : event) : bool :=
  match e, s with
  | EStep FIT_solver, FIT_solver | EStep FDTD_solver, FDTD_solver => true
  | _, _ => false
  end.

Definition steps_of (s : solver_id) (l : list event) : nat :=
  List.length (filter (is_step_of s) l).

Definition saved (l : list event) : list string :=
  flat_map (fun e => match e with ESavefig p => [p] | _ => [] end) l.


(** An iteration that always goes through and ends in saving its
    frame. *)
Definition iteration (hd : list event) (dir : string) (n : Z) : list event :=
  hd ++ [ESavefig (Frames.frame dir n)].

End CavityLoops.

(* ================================================================== *)
(** * Properties of the MPI driver                                     *)
(* ================================================================== *)

Module MPIFacts.
Import Py ScriptMPI.

(** The script, by the place where it stops. *)
Lemma script_cases (e : env) :
  script e =
  match domain_setup (size e) (rank e) (zmin e) (zmax e) with
  | Raise x => (log_start e, Raise x)
  | Ok d =>
      match Nt e with
      | Raise x => (log_built e d, Raise x)
      | Ok nt =>
          match range nt with
          | Raise x => (log_built e d, Raise x)
          | Ok ns => (log_built e d ++ time_loop e d ns, Ok tt)
          end
      end
  end.
Proof.
  unfold script, log_built, log_start.
  destruct (domain_setup _ _ _ _) as [d|x]; [|reflexivity].
  cbn [bindM emits emit lift app].
  destruct (Nt e) as [nt|x]; [|reflexivity].
  cbn [bindM emits emit lift app].
  destruct (range nt) as [ns|x]; reflexivity.
Qed.

(** Every float that [float(Nz)] can be after the adjustment is nonzero. *)
Lemma float_of_Nz_nonzero (n : Z) :
  (141 <= n <= 282)%Z -> PrimFloat.eqb (float_of_Z n) PrimFloat.zero = false.
Proof.
  intros Hn.
  assert (Hall : forallb
            (fun k => negb (PrimFloat.eqb (float_of_Z (Z.of_nat k)) PrimFloat.zero))
            (seq 141 142) = true) by (vm_compute; reflexivity).
  rewrite forallb_forall in Hall.
  specialize (Hall (Z.to_nat n)).
  rewrite Z2Nat.id in Hall by lia.
  apply negb_true_iff, Hall, in_seq. lia.
Qed.

Lemma adjusted_Nz_range (m : Z) :
  (1 <= m)%Z -> (141 <= Nz + Nz mod m <= 282)%Z.
Proof.
  intros Hm. unfold Nz.
  assert (0 <= 141 mod m < m)%Z by (apply Z.mod_pos_bound; lia).
  assert (141 mod m <= 141)%Z by (apply Z.mod_le; lia).
  lia.
Qed.

(** With two processes or more the domain setup goes through. *)
Lemma domain_setup_ok (size rank : Z) (zmin zmax : float) :
  (2 <= size)%Z ->
  exists d, domain_setup size rank zmin zmax = Ok d
            /\ Nz_adj d = (Nz + Nz mod (size - 1))%Z
            /\ Nz_mpi d = (Nz_adj d / (size - 1))%Z.
Proof.
  intros Hs. unfold domain_setup, mod_int, floordiv_int, truediv_float.
  destruct (Z.eqb_spec (size - 1) 0) as [E|_]; [lia|]. cbn [bind].
  rewrite float_of_Nz_nonzero by (apply adjusted_Nz_range; lia).
  cbn [bind]. eexists. split; [reflexivity|]. cbn. auto.
Qed.

(** The slice of one rank ends where the slice of the next begins. *)
Lemma slices_contiguous (size rank : Z) (zmin zmax : float) d d' :
  domain_setup size rank zmin zmax = Ok d ->
  domain_setup size (rank + 1) zmin zmax = Ok d' ->
  zmax_mpi d = zmin_mpi d'.
Proof.
  unfold domain_setup, mod_int, floordiv_int, truediv_float.
  destruct (Z.eqb_spec (size - 1) 0); [discriminate|]. cbn [bind].
  destruct (PrimFloat.eqb _ _); [discriminate|]. cbn [bind].
  intros [= <-] [= <-]. cbn.
  replace (rank + 1 - 1)%Z with rank by lia. reflexivity.
Qed.

(** The time loop emits its two calls per iteration and nothing else. *)
Lemma time_loop_no_exchange e d ns :
  filter is_exchange (time_loop e d ns) = [].
Proof.
  unfold time_loop. induction ns as [|n ns IH]; [reflexivity|].
  cbn [flat_map]. rewrite filter_app, IH. reflexivity.
Qed.

Lemma log_built_no_exchange e d : filter is_exchange (log_built e d) = [].
Proof.
  unfold log_built, make_grid. destruct (rank e =? 0)%Z; reflexivity.
Qed.

Lemma log_built_no_step e d : filter is_step (log_built e d) = [].
Proof.
  unfold log_built, make_grid. destruct (rank e =? 0)%Z; reflexivity.
Qed.

Lemma script_no_exchange e : filter is_exchange (fst (script e)) = [].
Proof.
  rewrite script_cases.
  destruct (domain_setup _ _ _ _) as [d|x]; [|reflexivity].
  destruct (Nt e) as [nt|x]; [|apply log_built_no_exchange].
  destruct (range nt) as [ns|x]; [|apply log_built_no_exchange].
  cbn [fst]. rewrite filter_app, log_built_no_exchange, time_loop_no_exchange.
  reflexivity.
Qed.

Lemma Nt_is_float e v : Nt e = Ok v -> exists f, v = PyFloat f.
Proof.
  unfold Nt, truediv.
  destruct (PrimFloat.eqb (to_float (solver_dt e)) _); [discriminate|].
  cbn [bind].
  destruct (PrimFloat.eqb (to_float (wake_v e)) _); [discriminate|].
  intros [= <-]. eexists. reflexivity.
Qed.

Lemma Nt_ok e :
  PrimFloat.eqb (to_float (solver_dt e)) PrimFloat.zero = false ->
  PrimFloat.eqb (to_float (wake_v e)) PrimFloat.zero = false ->
  exists f, Nt e = Ok (PyFloat f).
Proof.
  intros Hdt Hv. unfold Nt, truediv. rewrite Hdt. cbn [bind]. rewrite Hv.
  eexists. reflexivity.
Qed.

Lemma script_never_steps e : filter is_step (fst (script e)) = [].
Proof.
  rewrite script_cases.
  destruct (domain_setup _ _ _ _) as [d|x]; [|reflexivity].
  destruct (Nt e) as [nt|x] eqn:E; [|apply log_built_no_step].
  destruct (Nt_is_float e E) as [f ->]. apply log_built_no_step.
Qed.

Lemma protocol_loop_exchanges e d n ns :
  existsb is_exchange (protocol_loop e d (n :: ns)) = true.
Proof. reflexivity. Qed.

(** C3 (evaluation at the failing input).  With five processes the
    adjustment [Nz += Nz%(size-1)] turns 141 into 142, which four does not
    divide: each of the ranks 1..4 gets 35 cells, 140 in all and not 142,
    and the slices, though contiguous, all end below zmax = 142, the last
    at 140*dz = 140.  And the slices are laid from 0, not from zmin: with two
    processes over the z-range [142, 284] the one worker is given
    [0, 142]. *)
Theorem five_process_slices_miss_domain :
  worker_slices 5 0%float 142%float
  = [ Some (142%Z, 35%Z, 0%float, 35%float);
      Some (142%Z, 35%Z, 35%float, 70%float);
      Some (142%Z, 35%Z, 70%float, 105%float);
      Some (142%Z, 35%Z, 105%float, 140%float) ]
  /\ total_local_cells (worker_slices 5 0%float 142%float) = 140%Z
  /\ (total_local_cells (worker_slices 5 0%float 142%float) <? 142)%Z = true
  /\ forallb (fun s => match s with
                       | Some (_, _, _, zhi) => PrimFloat.ltb zhi 142%float
                       | None => false
                       end)
             (worker_slices 5 0%float 142%float) = true
  /\ worker_slices 2 142%float 284%float
     = [ Some (141%Z, 141%Z, 0%float, 142%float) ].
Proof.
  repeat split; vm_compute; reflexivity.
Qed.

(** C4.  Whatever the environment and however many iterations the time
    loop runs, the script never sends or receives a field slice: neither
    the loop body, nor the loop, nor the script as a whole emits an
    exchange, whereas every iteration of the decomposition protocol
    does. *)
Theorem time_loop_has_no_ghost_exchange :
  forall (e : env) (d : domain),
    (forall n, filter is_exchange (loop_body e d n) = []) /\
    (forall ns, filter is_exchange (time_loop e d ns) = []) /\
    filter is_exchange (fst (script e)) = [] /\
    (forall n ns, existsb is_exchange (protocol_loop e d (n :: ns)) = true).
Proof.
  intros e d. repeat split.
  - apply time_loop_no_exchange.
  - apply script_no_exchange.
Qed.

(** C5.  For every configuration the step count [Nt], when the
    expression evaluates at all, is a float, [range(Nt)] raises a
    [TypeError], and the script logs neither a source update nor a solver
    step; with two processes or more and nonzero [solver.dt] and [wake.v]
    the expression does evaluate and the script ends in that
    [TypeError]. *)
Theorem step_count_is_float_loop_never_runs :
  forall e : env,
    filter is_step (fst (script e)) = [] /\
    (forall v, Nt e = Ok v -> is_float v = true /\ range v = Raise TypeError) /\
    ((2 <= size e)%Z ->
     PrimFloat.eqb (to_float (solver_dt e)) PrimFloat.zero = false ->
     PrimFloat.eqb (to_float (wake_v e)) PrimFloat.zero = false ->
     (exists f, Nt e = Ok (PyFloat f)) /\ snd (script e) = Raise TypeError).
Proof.
  intros e. split; [apply script_never_steps|]. split.
  - intros v Hv. destruct (Nt_is_float e Hv) as [f ->]. split; reflexivity.
  - intros Hs Hdt Hv.
    destruct (Nt_ok e Hdt Hv) as [f Hf]. split; [exists f; exact Hf|].
    rewrite script_cases.
    destruct (domain_setup_ok (rank e) (zmin e) (zmax e) Hs) as (d & -> & _).
    rewrite Hf. reflexivity.
Qed.

(** C5 for rank 1 of two processes. *)
Lemma step_count_is_float_witness :
  (exists f, Nt env_two_ranks = Ok (PyFloat f)) /\
  snd (script env_two_ranks) = Raise TypeError.
Proof.
  apply (proj2 (proj2 (step_count_is_float_loop_never_runs env_two_ranks))).
  - cbn. lia.
  - vm_compute. reflexivity.
  - vm_compute. reflexivity.
Defined.

(** C10.  With a single process [Nz % (size-1)] divides by zero: the
    script stops there, having built neither grid nor solver nor source;
    with two processes or more the domain setup succeeds and the grid is
    built. *)
Theorem single_process_zero_division :
  (forall e : env, size e = 1%Z ->
     domain_setup (size e) (rank e) (zmin e) (zmax e) = Raise ZeroDivisionError /\
     script e = (log_start e, Raise ZeroDivisionError) /\
     filter is_construction (fst (script e)) = []) /\
  (forall e : env, (2 <= size e)%Z ->
     exists d, domain_setup (size e) (rank e) (zmin e) (zmax e) = Ok d /\
               In (make_grid e d) (fst (script e))).
Proof.
  split.
  - intros e Hs.
    assert (Hd : domain_setup (size e) (rank e) (zmin e) (zmax e)
                 = Raise ZeroDivisionError).
    { unfold domain_setup. rewrite Hs. reflexivity. }
    split; [exact Hd|].
    rewrite script_cases, Hd. split; reflexivity.
  - intros e Hs.
    destruct (domain_setup_ok (rank e) (zmin e) (zmax e) Hs) as (d & Hd & _).
    exists d. split; [exact Hd|].
    rewrite script_cases, Hd.
    assert (Hin : In (make_grid e d) (log_built e d)).
    { unfold log_built. apply in_or_app. right. cbn. auto. }
    destruct (Nt e) as [nt|x]; [|exact Hin].
    destruct (range nt) as [ns|x]; [|exact Hin].
    cbn [fst]. apply in_or_app. left. exact Hin.
Qed.

(** C10 for one process, and for two. *)
Lemma single_process_witness :
  script env_one_rank = (log_start env_one_rank, Raise ZeroDivisionError) /\
  exists d, domain_setup 2 1 0 1 = Ok d /\
            In (make_grid env_two_ranks d) (fst (script env_two_ranks)).
Proof.
  split.
  - apply (proj1 single_process_zero_division env_one_rank). reflexivity.
  - apply (proj2 single_process_zero_division env_two_ranks). cbn. lia.
Defined.

End MPIFacts.

(* ================================================================== *)
(** * Properties of the two cavity drivers                             *)
(* ================================================================== *)

Module CavityFacts.
Import Py GridArgs Numpy.

Lemma get3_map3 (f : float -> float) (a : ndarray) (i j k : nat) :
  get3 (map3 f a) i j k = option_map f (get3 a i j k).
Proof.
  unfold get3, map3.
  rewrite nth_error_map. destruct (nth_error a i) as [plane|]; [|reflexivity].
  cbn [option_map].
  rewrite nth_error_map. destruct (nth_error plane j) as [row|]; [|reflexivity].
  cbn [option_map]. apply nth_error_map.
Qed.

(** An array overwritten with [np.ones_like(a)*s*t] keeps its shape and
    holds [(1.0*s)*t] everywhere. *)
Lemma get3_ones_scaled (a : ndarray) (s t : float) (i j k : nat) :
  get3 (mul_scalar (mul_scalar (ones_like a) s) t) i j k
  = option_map (fun _ => PrimFloat.mul (PrimFloat.mul PrimFloat.one s) t)
               (get3 a i j k).
Proof.
  unfold mul_scalar, ones_like. rewrite !get3_map3.
  destruct (get3 a i j k); reflexivity.
Qed.

(** C6.  After lines 52-55 of script_cube_cav_fit.py the three face-area
    arrays of the comparison grid have the shape the constructor gave them
    and, at every index, hold exactly the nominal area of an uncut face:
    [dx*dy] in [Sxy], [dx*dz] in [Szx] and [dz*dy] in [Syz]. *)
Theorem FDTD_grid_has_nominal_face_areas :
  forall (built : areas) (i j k : nat),
    get3 (Sxy (ScriptCube.gridFDTD built)) i j k
    = option_map (fun _ => PrimFloat.mul ScriptCube.dx ScriptCube.dy)
                 (get3 (Sxy0 built) i j k) /\
    get3 (Szx (ScriptCube.gridFDTD built)) i j k
    = option_map (fun _ => PrimFloat.mul ScriptCube.dx ScriptCube.dz)
                 (get3 (Szx0 built) i j k) /\
    get3 (Syz (ScriptCube.gridFDTD built)) i j k
    = option_map (fun _ => PrimFloat.mul ScriptCube.dz ScriptCube.dy)
                 (get3 (Syz0 built) i j k).
Proof.
  intros built i j k.
  unfold ScriptCube.gridFDTD.
  cbn [Sxy Szx Syz set_Sxy set_Szx set_Syz Grid3D_init].
  rewrite !get3_ones_scaled.
  repeat split; destruct (get3 _ i j k); cbn [option_map]; f_equal;
    vm_compute; reflexivity.
Qed.

(** C7.  The dual grid of script_noeb_fit.py has the cell counts and the
    conductor assembly of the primary grid, and each of its six bounds is
    the bound of the primary grid plus half a cell: [dx/2] on x, [dy/2] on
    y, [dz/2] on z, where [dx/2] is exactly half of [dx] and [dx] is the
    cell size [(xmax - xmin)/Nx] of the primary grid, and likewise on y
    and z. *)
Theorem tilde_grid_is_half_cell_shift :
  forall built : areas,
    let g := ScriptNoeb.gridFIT built in
    let t := ScriptNoeb.tgridFIT built in
    Nx t = Nx g /\ Ny t = Ny g /\ Nz t = Nz g /\
    conds t = conds g /\ kind t = kind g /\
    xmin t = PrimFloat.add (xmin g) (PrimFloat.div ScriptNoeb.dx 2) /\
    xmax t = PrimFloat.add (xmax g) (PrimFloat.div ScriptNoeb.dx 2) /\
    ymin t = PrimFloat.add (ymin g) (PrimFloat.div ScriptNoeb.dy 2) /\
    ymax t = PrimFloat.add (ymax g) (PrimFloat.div ScriptNoeb.dy 2) /\
    zmin t = PrimFloat.add (zmin g) (PrimFloat.div ScriptNoeb.dz 2) /\
    zmax t = PrimFloat.add (zmax g) (PrimFloat.div ScriptNoeb.dz 2) /\
    PrimFloat.mul (PrimFloat.div ScriptNoeb.dx 2) 2 = ScriptNoeb.dx /\
    PrimFloat.mul (PrimFloat.div ScriptNoeb.dy 2) 2 = ScriptNoeb.dy /\
    PrimFloat.mul (PrimFloat.div ScriptNoeb.dz 2) 2 = ScriptNoeb.dz /\
    PrimFloat.div (PrimFloat.sub (xmax g) (xmin g)) (float_of_Z (Nx g))
    = ScriptNoeb.dx /\
    PrimFloat.div (PrimFloat.sub (ymax g) (ymin g)) (float_of_Z (Ny g))
    = ScriptNoeb.dy /\
    PrimFloat.div (PrimFloat.sub (zmax g) (zmin g)) (float_of_Z (Nz g))
    = ScriptNoeb.dz.
Proof.
  intros built g t. subst g t.
  repeat split; vm_compute; reflexivity.
Qed.

End CavityFacts.

(* ================================================================== *)
(** * Properties of the solver core                                    *)
(* ================================================================== *)

Module CoreFacts.
Import Py Core.
Local Open Scope Qc_scope.

(** ** Field access *)

Lemma axis_of_label_unknown (l : string) :
  l <> "x"%string -> l <> "y"%string -> l <> "z"%string ->
  axis_of_label l = None.
Proof.
  intros Hx Hy Hz. unfold axis_of_label.
  destruct (String.eqb_spec l "x"); [contradiction|].
  destruct (String.eqb_spec l "y"); [contradiction|].
  destruct (String.eqb_spec l "z"); [contradiction|].
  reflexivity.
Qed.

Lemma in_range_spec (sh : shape) (i j k : Z) :
  in_range sh i j k = true <->
  (0 <= i < Nx sh /\ 0 <= j < Ny sh /\ 0 <= k < Nz sh)%Z.
Proof.
  unfold in_range. rewrite !andb_true_iff, !Z.leb_le, !Z.ltb_lt. lia.
Qed.

(** C9.  An indexed access to a component of a field (E, H and J are all
    [Field]s), read or write, raises when the coordinate lies outside the
    index range of the grid or when the label is none of ['x'], ['y'],
    ['z']; no value comes back and nothing is written. *)
Theorem field_access_out_of_range_raises :
  forall (F : Field) (i j k : Z) (label : string) (v : Qc),
    (~ (0 <= i < Nx (dims F) /\ 0 <= j < Ny (dims F) /\ 0 <= k < Nz (dims F))%Z
     \/ (label <> "x" /\ label <> "y" /\ label <> "z")%string) ->
    getitem F i j k label = Raise IndexError /\
    setitem F i j k label v = Raise IndexError.
Proof.
  intros F i j k label v [Hout | (Hx & Hy & Hz)].
  - assert (Hr : in_range (dims F) i j k = false).
    { destruct (in_range (dims F) i j k) eqn:Hr; [|reflexivity].
      apply in_range_spec in Hr. contradiction. }
    unfold getitem, setitem. rewrite Hr.
    destruct (axis_of_label label); split; reflexivity.
  - unfold getitem, setitem.
    rewrite (axis_of_label_unknown Hx Hy Hz). split; reflexivity.
Qed.

(** C9 at an index one past the end of the x axis. *)
Lemma field_access_witness :
  getitem (zeros {| Nx := 25; Ny := 25; Nz := 25 |}) 25 0 0 "z"
  = Raise IndexError /\
  setitem (zeros {| Nx := 25; Ny := 25; Nz := 25 |}) 25 0 0 "z" (QcZ 1)
  = Raise IndexError.
Proof.
  apply field_access_out_of_range_raises. left. cbn. lia.
Defined.

(** Within the range and under a known label the access goes through. *)
Lemma field_access_in_range (F : Field) (i j k : Z) (label : string) (a : axis) :
  in_range (dims F) i j k = true -> axis_of_label label = Some a ->
  getitem F i j k label = Ok (comp F a i j k).
Proof. intros Hr Ha. unfold getitem. rewrite Ha, Hr. reflexivity. Qed.

(** ** Cell sizes *)

Lemma QcZ_neq0 (n : Z) : (0 < n)%Z -> QcZ n <> 0.
Proof.
  intros Hn Hq. unfold QcZ in Hq.
  apply Q2Qc_eq_iff in Hq. unfold Qeq in Hq. simpl in Hq. lia.
Qed.

Lemma cell_neq0 (lo hi : Qc) (n : Z) :
  lo < hi -> (0 < n)%Z -> (hi - lo) / QcZ n <> 0.
Proof.
  intros Hlt Hn Hq.
  assert (Hz := QcZ_neq0 Hn).
  assert (Hd : hi - lo = 0).
  { replace (hi - lo) with ((hi - lo) / QcZ n * QcZ n) by (field; exact Hz).
    rewrite Hq. ring. }
  assert (He : hi = lo).
  { replace hi with (hi - lo + lo) by ring. rewrite Hd. ring. }
  subst. apply (Qclt_not_eq _ _ Hlt). reflexivity.
Qed.

Lemma tilde_cells (g tg : Grid) :
  tilde_of g tg -> dx tg = dx g /\ dy tg = dy g /\ dz tg = dz g.
Proof.
  intros (Hc & Hx0 & Hx1 & Hy0 & Hy1 & Hz0 & Hz1).
  unfold dx, dy, dz. rewrite Hc, Hx0, Hx1, Hy0, Hy1, Hz0, Hz1.
  repeat split; f_equal; ring.
Qed.

Lemma same_box_cells (g gD : Grid) :
  same_box g gD -> dx gD = dx g /\ dy gD = dy g /\ dz gD = dz g.
Proof.
  intros (Hc & Hx0 & Hx1 & Hy0 & Hy1 & Hz0 & Hz1).
  unfold dx, dy, dz. rewrite Hc, Hx0, Hx1, Hy0, Hy1, Hz0, Hz1. auto.
Qed.

Lemma wellformed_cells (g : Grid) :
  wellformed g -> dx g <> 0 /\ dy g <> 0 /\ dz g <> 0.
Proof.
  intros (Hx & Hy & Hz & Nx & Ny & Nz).
  unfold dx, dy, dz. repeat split; apply cell_neq0; assumption.
Qed.

(** ** The integral and the differential curls on an uncut grid *)

Lemma rd_ext (sh : shape) (a b : array3) (i j k : Z) :
  (forall i j k, a i j k = b i j k) -> rd sh a i j k = rd sh b i j k.
Proof. intros Hab. unfold rd. rewrite Hab. reflexivity. Qed.

Lemma pec_ext (e e' : axis -> array3) (a : axis) (i j k : Z) :
  (forall a i j k, e a i j k = e' a i j k) -> pec e a i j k = pec e' a i j k.
Proof. intros He. unfold pec. destruct a; rewrite He; reflexivity. Qed.

Ltac rd_to e e' He :=
  repeat match goal with
  | |- context [rd ?sh (e ?c) ?i ?j ?k] =>
      rewrite (@rd_ext sh (e c) (e' c) i j k (He c))
  end.

Ltac use_uncut g Hu :=
  repeat match goal with
  | |- context [Lx g ?i ?j ?k] => rewrite (proj1 (Hu i j k))
  | |- context [Ly g ?i ?j ?k] => rewrite (proj1 (proj2 (Hu i j k)))
  | |- context [Lz g ?i ?j ?k] => rewrite (proj1 (proj2 (proj2 (Hu i j k))))
  | |- context [Sxy g ?i ?j ?k] =>
      rewrite (proj1 (proj2 (proj2 (proj2 (Hu i j k)))))
  | |- context [Syz g ?i ?j ?k] =>
      rewrite (proj1 (proj2 (proj2 (proj2 (proj2 (Hu i j k))))))
  | |- context [Szx g ?i ?j ?k] =>
      rewrite (proj2 (proj2 (proj2 (proj2 (proj2 (Hu i j k))))))
  end.

(** Faraday: circulation over area is the finite difference. *)
Lemma curl_E_diff_E (g : Grid) (e e' : axis -> array3) (a : axis) (i j k : Z) :
  uncut g -> dx g <> 0 -> dy g <> 0 -> dz g <> 0 ->
  (forall a i j k, e a i j k = e' a i j k) ->
  curl_E g e a i j k = diff_E g e' a i j k.
Proof.
  intros Hu Hx Hy Hz He.
  unfold curl_E, diff_E, volt.
  destruct a; rd_to e e' He; use_uncut g Hu; field; auto.
Qed.

(** Ampere, on the dual grid. *)
Lemma curl_H_diff_H (g tg : Grid) (h h' : axis -> array3) (a : axis) (i j k : Z) :
  uncut tg -> cells tg = cells g ->
  dx tg = dx g -> dy tg = dy g -> dz tg = dz g ->
  dx g <> 0 -> dy g <> 0 -> dz g <> 0 ->
  (forall a i j k, h a i j k = h' a i j k) ->
  curl_H tg h a i j k = diff_H g h' a i j k.
Proof.
  intros Hu Hc Ex Ey Ez Hx Hy Hz Hh.
  unfold curl_H, diff_H, volt. rewrite Hc.
  destruct a; rd_to h h' Hh; use_uncut tg Hu; rewrite ?Ex, ?Ey, ?Ez;
    field; auto.
Qed.

(** ** The FIT solver simulates the FDTD solver *)

Lemma update_H_sim (sF : SolverFIT3D) (sD : EMSolver3D) :
  good sF -> sim sF sD ->
  forall a i j k, update_H sF a i j k = update_H_FDTD sD a i j k.
Proof.
  intros (Hu & Htu & Ht & Hw) S a i j k.
  destruct S as [Hbox Hmat Hdt HE HH HJ Hn Htime].
  destruct (wellformed_cells Hw) as (Nx0 & Ny0 & Nz0).
  destruct (same_box_cells Hbox) as (Dx & Dy & Dz).
  assert (Hc : cells (gridD sD) = cells (grid sF)) by apply Hbox.
  unfold update_H, update_H_FDTD.
  rewrite Hc, <- Hmat, <- Hdt, !HH.
  rewrite curl_E_diff_E with (e' := ED sD) by auto.
  unfold diff_E. rewrite Hc, Dx, Dy, Dz. reflexivity.
Qed.

Lemma update_E_sim (sF : SolverFIT3D) (sD : EMSolver3D) (h h' : axis -> array3) :
  good sF -> sim sF sD ->
  (forall a i j k, h a i j k = h' a i j k) ->
  forall a i j k, update_E sF h a i j k = update_E_FDTD sD h' a i j k.
Proof.
  intros (Hu & Htu & Ht & Hw) S Hh a i j k.
  destruct S as [Hbox Hmat Hdt HE HH HJ Hn Htime].
  destruct (wellformed_cells Hw) as (Nx0 & Ny0 & Nz0).
  destruct (same_box_cells Hbox) as (Dx & Dy & Dz).
  destruct (tilde_cells Ht) as (Tx & Ty & Tz).
  assert (Hc : cells (gridD sD) = cells (grid sF)) by apply Hbox.
  assert (Htc : cells (tgrid sF) = cells (grid sF)) by apply Ht.
  unfold update_E, update_E_FDTD.
  rewrite Hc, <- Hmat, <- Hdt, !HJ, !HE.
  rewrite (pec_ext _ _ a i j k HE).
  rewrite curl_H_diff_H with (g := grid sF) (h' := h') by auto.
  unfold diff_H. rewrite Hc, Dx, Dy, Dz. reflexivity.
Qed.

Lemma one_step_sim (sF : SolverFIT3D) (sD : EMSolver3D) :
  good sF -> sim sF sD -> sim (one_step sF) (one_step_FDTD sD).
Proof.
  intros G S.
  assert (Hh := update_H_sim G S).
  assert (He := @update_E_sim sF sD _ _ G S Hh).
  destruct S as [Hbox Hmat Hdt HE HH HJ Hn Htime].
  constructor; cbn [one_step one_step_FDTD grid gridD mat matD dt dtD
                    nstep nstepD time timeD E H J comp]; auto.
  - intros a i j k. rewrite He. destruct a; reflexivity.
  - intros a i j k. rewrite Hh. destruct a; reflexivity.
  - rewrite Hn. reflexivity.
  - rewrite Htime, Hdt. reflexivity.
Qed.

Lemma steps_good (n : nat) (sF : SolverFIT3D) : good sF -> good (steps n sF).
Proof.
  intros G. unfold steps. induction n as [|n IH]; [exact G|].
  cbn [Nat.iter]. exact IH.
Qed.

Lemma steps_sim (n : nat) (sF : SolverFIT3D) (sD : EMSolver3D) :
  good sF -> sim sF sD -> sim (steps n sF) (steps_FDTD n sD).
Proof.
  intros G S. induction n as [|n IH]; [exact S|].
  change (sim (one_step (steps n sF)) (one_step_FDTD (steps_FDTD n sD))).
  apply one_step_sim; [apply steps_good; exact G | exact IH].
Qed.

(** Both seeds write the same cell. *)
Lemma seeded_sim (g tg gD : Grid) (m : Material) (dt0 A : Qc) (i j k : Z)
    (sF : SolverFIT3D) (sD : EMSolver3D) :
  same_box g gD ->
  seed_E (SolverFIT3D_init g tg m dt0) i j k "z" A = Ok sF ->
  seed_Ez (EMSolver3D_init gD m dt0) i j k A = Ok sD ->
  sim sF sD /\ grid sF = g /\ tgrid sF = tg.
Proof.
  intros Hbox HF HD.
  unfold seed_E, setitem in HF.
  change (axis_of_label "z") with (Some AZ) in HF.
  cbn [SolverFIT3D_init E zeros dims] in HF.
  destruct (in_range (cells g) i j k) eqn:Hin; [|discriminate].
  cbn [bind] in HF. injection HF as <-.
  unfold seed_Ez, ndarray_setitem in HD.
  cbn [EMSolver3D_init gridD Ez] in HD.
  assert (Hc : cells gD = cells g) by apply Hbox.
  rewrite Hc in HD.
  apply in_range_spec in Hin. destruct Hin as (Hi & Hj & Hk).
  unfold norm_index in HD.
  rewrite !(proj2 (andb_true_iff _ _)) in HD
    by (split; [apply Z.leb_le | apply Z.ltb_lt]; lia).
  cbn [bind] in HD. injection HD as <-.
  split; [|split; reflexivity].
  constructor; cbn [grid gridD mat matD dt dtD E H J comp nstep nstepD
                    time timeD SolverFIT3D_init EMSolver3D_init zeros];
    try reflexivity; try assumption;
    intros a i' j' k'; destruct a; reflexivity.
Qed.

(** C1.  On a well-formed grid with zero conductor cut (and its dual, the
    same grid half a cell further), a FIT solver and an FDTD solver built
    over the same box, cells, materials and time step, and seeded with the
    same single E_z excitation, hold the same E and H at every index and
    after every number of steps.  In exact arithmetic the two agree
    exactly; the rounding of binary64 is not part of the model. *)
Theorem FIT_matches_FDTD_without_conductors :
  forall (g tg gD : Grid) (m : Material) (dt0 A : Qc) (i j k : Z)
         (sF : SolverFIT3D) (sD : EMSolver3D),
    wellformed g -> uncut g -> uncut tg -> tilde_of g tg -> same_box g gD ->
    seed_E (SolverFIT3D_init g tg m dt0) i j k "z" A = Ok sF ->
    seed_Ez (EMSolver3D_init gD m dt0) i j k A = Ok sD ->
    forall (n : nat) (a : axis) (i' j' k' : Z),
      comp (E (steps n sF)) a i' j' k' = ED (steps_FDTD n sD) a i' j' k' /\
      comp (H (steps n sF)) a i' j' k' = HD (steps_FDTD n sD) a i' j' k'.
Proof.
  intros g tg gD m dt0 A i j k sF sD Hw Hu Htu Ht Hbox HF HD n a i' j' k'.
  destruct (@seeded_sim g tg gD m dt0 A i j k sF sD Hbox HF HD) as (S & Hg & Htg).
  assert (G : good sF) by (unfold good; rewrite Hg, Htg; auto).
  destruct (steps_sim n G S) as [_ _ _ HE HH _ _ _].
  split; [apply HE | apply HH].
Qed.

(** ** The grids of the cavity scripts *)

Lemma noConductor_uncut (x0 x1 y0 y1 z0 z1 : Qc) (nx ny nz : Z) :
  uncut (Grid3D_noConductor x0 x1 y0 y1 z0 z1 nx ny nz).
Proof. intros i j k. repeat split; reflexivity. Qed.

Lemma QcZ_2 : QcZ 2 = 1 + 1.
Proof. apply Qc_is_canon. reflexivity. Qed.

Lemma cavity_cell (L : Qc) (N : Z) :
  (0 < N)%Z ->
  dx (cavity_grid L N) = L / QcZ N /\
  dy (cavity_grid L N) = L / QcZ N /\
  dz (cavity_grid L N) = L / QcZ N.
Proof.
  intros HN. assert (Hn := QcZ_neq0 HN).
  assert (H2 : QcZ 2 <> 0) by (apply QcZ_neq0; lia).
  unfold dx, dy, dz, cavity_grid, Grid3D_noConductor.
  cbn [xmin xmax ymin ymax zmin zmax cells Nx Ny Nz].
  rewrite QcZ_2 in *.
  repeat split; field; auto.
Qed.

Lemma cavity_tilde (L : Qc) (N : Z) :
  (0 < N)%Z -> tilde_of (cavity_grid L N) (cavity_tgrid L N).
Proof.
  intros HN. destruct (cavity_cell L HN) as (Hx & Hy & Hz).
  unfold tilde_of. rewrite Hx, Hy, Hz.
  repeat split; reflexivity.
Qed.

Lemma cavity_wellformed (L : Qc) (N : Z) :
  0 < L -> (0 < N)%Z -> wellformed (cavity_grid L N).
Proof.
  intros HL HN. assert (Hn := QcZ_neq0 HN).
  assert (H2 : QcZ 2 <> 0) by (apply QcZ_neq0; lia).
  assert (Hlt : - L / QcZ 2 + L / QcZ N / QcZ 2
                < L / QcZ 2 + L / QcZ N / QcZ 2).
  { rewrite QcZ_2 in *. apply Qclt_minus_iff.
    replace (L / (1 + 1) + L / QcZ N / (1 + 1)
             + - (- L / (1 + 1) + L / QcZ N / (1 + 1))) with L
      by (field; auto).
    exact HL. }
  unfold wellformed, cavity_grid, Grid3D_noConductor.
  cbn [xmin xmax ymin ymax zmin zmax cells Nx Ny Nz].
  repeat split; assumption.
Qed.

Lemma same_box_refl (g : Grid) : same_box g g.
Proof. unfold same_box. repeat split; reflexivity. Qed.

(** C1 at the grids of script_noeb_fit.py, two steps in. *)
Lemma FIT_matches_FDTD_witness :
  comp (E (steps 2 noeb_FIT)) AZ 12%Z 6%Z 6%Z
  = ED (steps_FDTD 2 noeb_FDTD) AZ 12%Z 6%Z 6%Z /\
  comp (H (steps 2 noeb_FIT)) AZ 12%Z 6%Z 6%Z
  = HD (steps_FDTD 2 noeb_FDTD) AZ 12%Z 6%Z 6%Z.
Proof.
  apply (@FIT_matches_FDTD_without_conductors
           (cavity_grid (QcZ 1) ScriptNoeb.N)
           (cavity_tgrid (QcZ 1) ScriptNoeb.N)
           (cavity_grid (QcZ 1) ScriptNoeb.N)
           (uniform (QcZ 1) (QcZ 1)) (QcZ 1 / QcZ 100) (QcZ 1)
           ScriptNoeb.seed_i ScriptNoeb.seed_j ScriptNoeb.seed_k).
  - apply cavity_wellformed; reflexivity.
  - apply noConductor_uncut.
  - apply noConductor_uncut.
  - apply cavity_tilde; reflexivity.
  - apply same_box_refl.
  - reflexivity.
  - reflexivity.
Defined.

(** ** One step from a single E_z excitation *)

Lemma at_cell_true (i0 j0 k0 i j k : Z) :
  at_cell i0 j0 k0 i j k = true <-> i = i0 /\ j = j0 /\ k = k0.
Proof.
  unfold at_cell. rewrite !andb_true_iff, !Z.eqb_eq. tauto.
Qed.

Lemma rd_seed (sh : shape) (i0 j0 k0 : Z) (A : Qc) (i j k : Z) :
  in_range sh i0 j0 k0 = true ->
  rd sh (upd3 (fun _ _ _ => 0) i0 j0 k0 A) i j k
  = if at_cell i0 j0 k0 i j k then A else 0.
Proof.
  intros Hin. unfold rd, upd3.
  destruct (at_cell i0 j0 k0 i j k) eqn:Hat.
  - apply at_cell_true in Hat as (-> & -> & ->). rewrite Hin. reflexivity.
  - destruct (in_range sh i j k); reflexivity.
Qed.

Lemma rd_zero (sh : shape) (i j k : Z) : rd sh (fun _ _ _ => 0) i j k = 0.
Proof. unfold rd. destruct (in_range sh i j k); reflexivity. Qed.

(** H after one step from a single E_z excitation, on any uncut grid:
    the two x-faces and the two y-faces at the excited edge, nothing on
    the z-faces. *)
Lemma H_after_seed (g tg : Grid) (m : Material) (dt0 A : Qc) (i0 j0 k0 : Z)
    (s0 : SolverFIT3D) :
  uncut g -> dx g <> 0 -> dy g <> 0 -> dz g <> 0 ->
  seed_E (SolverFIT3D_init g tg m dt0) i0 j0 k0 "z" A = Ok s0 ->
  forall a i j k,
    comp (H (one_step s0)) a i j k =
    if in_range (cells g) i j k then
      match a with
      | AX => - (dt0 / mu m i j k * (A / dy g))
              * (kron (at_cell i0 j0 k0 i (j + 1) k)
                 - kron (at_cell i0 j0 k0 i j k))
      | AY => (dt0 / mu m i j k * (A / dx g))
              * (kron (at_cell i0 j0 k0 (i + 1) j k)
                 - kron (at_cell i0 j0 k0 i j k))
      | AZ => 0
      end
    else 0.
Proof.
  intros Hu Hx Hy Hz Hseed a i j k.
  unfold seed_E, setitem in Hseed.
  change (axis_of_label "z") with (Some AZ) in Hseed.
  cbn [SolverFIT3D_init E zeros dims bind] in Hseed.
  destruct (in_range (cells g) i0 j0 k0) eqn:Hin; [|discriminate].
  cbn [bind] in Hseed. injection Hseed as <-.
  cbn [one_step H comp]. unfold update_H.
  cbn [grid H E mat dt comp SolverFIT3D_init zeros].
  destruct (in_range (cells g) i j k) eqn:Hr; [|reflexivity].
  unfold curl_E, volt.
  destruct a; rewrite ?rd_seed by exact Hin; rewrite ?rd_zero;
    use_uncut g Hu; unfold kron; set (c := dt0 / mu m i j k);
    repeat match goal with
    | |- context [at_cell ?a ?b ?c ?d ?e ?f] => destruct (at_cell a b c d e f)
    end;
    field; auto.
Qed.

Lemma cube_script_constants :
  ScriptCube.N = 25%Z /\ ScriptCube.seed_i = 12%Z /\
  ScriptCube.seed_j = 12%Z /\ ScriptCube.seed_k = 12%Z.
Proof. repeat split; vm_compute; reflexivity. Qed.

Lemma cube_one_step (L eps0 mu0 dt0 A : Qc) :
  0 < L ->
  exists s0, cube_seeded L eps0 mu0 dt0 A = Ok s0 /\
             forall f, H_at (one_step s0) f = cube_H L mu0 dt0 A f.
Proof.
  intros HL.
  destruct cube_script_constants as (EN & Ei & Ej & Ek).
  unfold cube_seeded. rewrite EN, Ei, Ej, Ek.
  assert (HN : (0 < 25)%Z) by lia.
  destruct (wellformed_cells (cavity_wellformed HL HN)) as (Nx0 & Ny0 & Nz0).
  destruct (cavity_cell L HN) as (Dx & Dy & Dz).
  set (g := cavity_grid L 25) in *.
  destruct (seed_E (SolverFIT3D_init g (cavity_tgrid L 25) (uniform eps0 mu0) dt0)
                   12 12 12 "z" A) as [s0|x] eqn:Hs; [|discriminate Hs].
  exists s0. split; [reflexivity|].
  intros [a [[i j] k]]. unfold H_at.
  rewrite (@H_after_seed g _ _ dt0 A 12 12 12 s0
             (noConductor_uncut _ _ _ _ _ _ _ _ _) Nx0 Ny0 Nz0 Hs).
  rewrite Dx, Dy in *. cbn [mu uniform]. unfold cube_H.
  assert (Hq : QcZ 25 <> 0) by (apply QcZ_neq0; lia).
  assert (HL0 : L <> 0) by (intros ->; exact (Qclt_not_eq _ _ HL eq_refl)).
  set (c := dt0 / mu0).
  destruct a.
  - destruct (at_cell 12 12 12 i j k) eqn:E1.
    { apply at_cell_true in E1 as (-> & -> & ->).
      change (in_range (cells g) 12 12 12) with true.
      change (at_cell 12 12 12 12 (12 + 1) 12) with false.
      unfold kron. field; auto. }
    destruct (at_cell 12 11 12 i j k) eqn:E2.
    { apply at_cell_true in E2 as (-> & -> & ->).
      change (in_range (cells g) 12 11 12) with true.
      change (at_cell 12 12 12 12 (11 + 1) 12) with true.
      unfold kron. field; auto. }
    assert (E3 : at_cell 12 12 12 i (j + 1) k = false).
    { destruct (at_cell 12 12 12 i (j + 1) k) eqn:E3; [|reflexivity].
      apply at_cell_true in E3 as (-> & Hj & ->).
      assert (j = 11)%Z by lia. subst j. discriminate E2. }
    rewrite E3. unfold kron. destruct (in_range (cells g) i j k); ring.
  - destruct (at_cell 12 12 12 i j k) eqn:E1.
    { apply at_cell_true in E1 as (-> & -> & ->).
      change (in_range (cells g) 12 12 12) with true.
      change (at_cell 12 12 12 (12 + 1) 12 12) with false.
      unfold kron. field; auto. }
    destruct (at_cell 11 12 12 i j k) eqn:E2.
    { apply at_cell_true in E2 as (-> & -> & ->).
      change (in_range (cells g) 11 12 12) with true.
      change (at_cell 12 12 12 (11 + 1) 12 12) with true.
      unfold kron. field; auto. }
    assert (E3 : at_cell 12 12 12 (i + 1) j k = false).
    { destruct (at_cell 12 12 12 (i + 1) j k) eqn:E3; [|reflexivity].
      apply at_cell_true in E3 as (Hi & -> & ->).
      assert (i = 11)%Z by lia. subst i. discriminate E2. }
    rewrite E3. unfold kron. destruct (in_range (cells g) i j k); ring.
  - destruct (in_range (cells g) i j k); reflexivity.
Qed.

Lemma cube_H_on_faces (L mu0 dt0 A : Qc) (f : face) :
  In f (faces_at_z_edge 12 12 12) ->
  Qcabs.Qcabs (cube_H L mu0 dt0 A f)
  = Qcabs.Qcabs (dt0 / mu0 / (L / QcZ 25) * A).
Proof.
  cbn [faces_at_z_edge In].
  intros [<- | [<- | [<- | [<- | []]]]]; cbn;
    rewrite ?Qcabs.Qcabs_opp; reflexivity.
Qed.

Lemma cube_H_off_faces (L mu0 dt0 A : Qc) (f : face) :
  ~ In f (faces_at_z_edge 12 12 12) -> cube_H L mu0 dt0 A f = 0.
Proof.
  intros Hn. destruct f as [a [[i j] k]]. unfold cube_H.
  destruct a; [| |reflexivity].
  - destruct (at_cell 12 12 12 i j k) eqn:E1.
    { apply at_cell_true in E1 as (-> & -> & ->).
      exfalso. apply Hn. cbn. auto. }
    destruct (at_cell 12 11 12 i j k) eqn:E2; [|reflexivity].
    apply at_cell_true in E2 as (-> & -> & ->).
    exfalso. apply Hn. cbn. auto.
  - destruct (at_cell 12 12 12 i j k) eqn:E1.
    { apply at_cell_true in E1 as (-> & -> & ->).
      exfalso. apply Hn. cbn. auto. }
    destruct (at_cell 11 12 12 i j k) eqn:E2; [|reflexivity].
    apply at_cell_true in E2 as (-> & -> & ->).
    exfalso. apply Hn. cbn. auto.
Qed.

Lemma face_eq_dec (f f' : face) : {f = f'} + {f <> f'}.
Proof. repeat decide equality. Qed.

Lemma cube_H_nonzero_iff (L mu0 dt0 A : Qc) (f : face) :
  dt0 / mu0 / (L / QcZ 25) * A <> 0 ->
  (cube_H L mu0 dt0 A f <> 0 <-> In f (faces_at_z_edge 12 12 12)).
Proof.
  intros Hc. split.
  - intros Hf. destruct (in_dec face_eq_dec f (faces_at_z_edge 12 12 12))
      as [Hin|Hout]; [exact Hin|].
    exfalso. apply Hf. apply cube_H_off_faces. exact Hout.
  - intros Hin Hf. apply Hc. apply Qcabs.Qcabs_null.
    rewrite <- (@cube_H_on_faces L mu0 dt0 A f Hin), Hf.
    apply Qc_is_canon. reflexivity.
Qed.

(** C2, amended.  On the 25x25x25 uniform cube with PEC boundaries, after
    E_z at the centre cell is set to [A] and one step is taken, H is
    nonzero only at the four faces that share the excited edge (two normal
    to x, two normal to y); there its magnitude is
    (dt / (mu * cell size)) * |A|, and H is zero at every other face. *)
Theorem cube_one_step_H_four_faces :
  forall L eps0 mu0 dt0 A : Qc,
    0 < L ->
    exists s0,
      cube_seeded L eps0 mu0 dt0 A = Ok s0 /\
      let around := faces_at_z_edge ScriptCube.seed_i ScriptCube.seed_j
                                    ScriptCube.seed_k in
      let c := dt0 / mu0 / (L / QcZ ScriptCube.N) * A in
      List.length around = 4%nat /\ NoDup around /\
      (forall f, In f around ->
                 Qcabs.Qcabs (H_at (one_step s0) f) = Qcabs.Qcabs c) /\
      (forall f, ~ In f around -> H_at (one_step s0) f = 0) /\
      (c <> 0 -> forall f, H_at (one_step s0) f <> 0 <-> In f around).
Proof.
  intros L eps0 mu0 dt0 A HL.
  destruct (@cube_one_step L eps0 mu0 dt0 A HL) as (s0 & Hs & Hv).
  exists s0. split; [exact Hs|].
  destruct cube_script_constants as (-> & -> & -> & ->).
  cbv zeta. split; [reflexivity|]. split.
  { repeat constructor; cbn; intuition discriminate. }
  split; [|split].
  - intros f Hin. rewrite Hv. apply cube_H_on_faces. exact Hin.
  - intros f Hout. rewrite Hv. apply cube_H_off_faces. exact Hout.
  - intros Hc f. rewrite Hv. apply cube_H_nonzero_iff. exact Hc.
Qed.

(** The amended C2 at unit parameters. *)
Lemma cube_one_step_H_witness :
  exists s0,
    cube_seeded (QcZ 1) (QcZ 1) (QcZ 1) (QcZ 1) (QcZ 1) = Ok s0 /\
    forall f, ~ In f (faces_at_z_edge 12 12 12) -> H_at (one_step s0) f = 0.
Proof.
  destruct (@cube_one_step_H_four_faces (QcZ 1) (QcZ 1) (QcZ 1) (QcZ 1) (QcZ 1))
    as (s0 & Hs & H4).
  - reflexivity.
  - exists s0. split; [exact Hs|]. apply H4.
Defined.

(** C2, as the spec has it, fails.  In the run of the cube script with SI
    vacuum there is no set of six faces that are exactly the faces where H
    is nonzero after the step (there are four), and at no face is the
    magnitude of H the speed of light times dt over the cell size times the
    excitation. *)
Lemma cube_six_faces_fails :
  match cube_run with
  | Ok s0 =>
      (~ exists fs : list face,
           NoDup fs /\ List.length fs = 6%nat /\
           forall f, In f fs <-> H_at (one_step s0) f <> 0) /\
      (forall f,
         Qcabs.Qcabs (H_at (one_step s0) f)
         <> c_lightQ * (QcZ 7 / QcZ (10 ^ 11)) / (QcZ 1 / QcZ 25) * c_lightQ)
  | Raise _ => False
  end.
Proof.
  unfold cube_run.
  destruct (@cube_one_step (QcZ 1) eps_0Q mu_0Q (QcZ 7 / QcZ (10 ^ 11)) c_lightQ)
    as (s0 & Hs & Hv); [reflexivity|].
  rewrite Hs.
  assert (Hc : QcZ 7 / QcZ (10 ^ 11) / mu_0Q / (QcZ 1 / QcZ 25) * c_lightQ <> 0).
  { intros Hq. apply (f_equal this) in Hq. vm_compute in Hq. discriminate Hq. }
  split.
  - intros (fs & Hnd & Hlen & Hiff).
    assert (Hperm : Permutation fs (faces_at_z_edge 12 12 12)).
    { apply NoDup_Permutation; [exact Hnd | |].
      - repeat constructor; cbn; intuition discriminate.
      - intros f. rewrite Hiff, Hv. apply cube_H_nonzero_iff. exact Hc. }
    apply Permutation_length in Hperm. rewrite Hlen in Hperm.
    discriminate Hperm.
  - intros f. rewrite Hv.
    destruct (in_dec face_eq_dec f (faces_at_z_edge 12 12 12)) as [Hin|Hout].
    + rewrite (@cube_H_on_faces _ _ _ _ f Hin).
      intros Hq. apply (f_equal this) in Hq. vm_compute in Hq. discriminate Hq.
    + rewrite (@cube_H_off_faces _ _ _ _ f Hout).
      intros Hq. apply (f_equal this) in Hq. vm_compute in Hq. discriminate Hq.
Qed.

End CoreFacts.

(* ================================================================== *)
(** * The source injection                                             *)
(* ================================================================== *)

Module SourceFacts.
Import Py.

Lemma time_loop_nth (e : ScriptMPI.env) (d : ScriptMPI.domain)
    (ns : list Z) (n : nat) :
  nth_error (ScriptMPI.time_loop e d ns) (2 * n)
  = option_map (fun m => ScriptMPI.EUpdateMpi
                           (mul (PyInt m) (ScriptMPI.solver_dt e))
                           (ScriptMPI.zmin e) (ScriptMPI.z d))
               (nth_error ns n)
  /\ nth_error (ScriptMPI.time_loop e d ns) (2 * n + 1)
     = option_map (fun _ => ScriptMPI.EOneStep) (nth_error ns n).
Proof.
  unfold ScriptMPI.time_loop. revert n.
  induction ns as [|m ns IH]; intros n.
  - cbn [flat_map]. rewrite !nth_error_nil. split; reflexivity.
  - destruct n as [|n].
    + split; reflexivity.
    + replace (2 * S n)%nat with (S (S (2 * n))) by lia.
      replace (S (S (2 * n)) + 1)%nat with (S (S (2 * n + 1))) by lia.
      cbn [flat_map ScriptMPI.loop_body app nth_error]. apply IH.
Qed.

Lemma range_nth (N : Z) (ns : list Z) (n : nat) :
  range (PyInt N) = Ok ns -> (Z.of_nat n < N)%Z ->
  nth_error ns n = Some (Z.of_nat n).
Proof.
  intros [= <-] Hn. rewrite nth_error_map, nth_error_seq.
  destruct (Nat.ltb_spec n (Z.to_nat N)) as [_|Hge]; [reflexivity | lia].
Qed.

(** C8.  In every iteration [n] of the time loop the source is injected,
    at the time [n*dt] it is handed, before the solver steps; and the
    current the injection writes is fixed by the beam parameters, that
    time, and the grid coordinates it is handed: two solvers over the same
    grid receive the same current, whatever their step counters, clocks
    and fields. *)
Theorem source_injected_before_step_from_time_only :
  (forall (e : ScriptMPI.env) (d : ScriptMPI.domain) (N : Z) (ns : list Z)
          (n : nat),
     range (PyInt N) = Ok ns -> (Z.of_nat n < N)%Z ->
     nth_error (ScriptMPI.time_loop e d ns) (2 * n)
     = Some (ScriptMPI.EUpdateMpi
               (mul (PyInt (Z.of_nat n)) (ScriptMPI.solver_dt e))
               (ScriptMPI.zmin e) (ScriptMPI.z d)) /\
     nth_error (ScriptMPI.time_loop e d ns) (2 * n + 1)
     = Some ScriptMPI.EOneStep) /\
  (forall (profile : Qc -> Qc -> Qc) (b : Core.Beam)
          (s1 s2 : Core.SolverFIT3D) (t zmin : Qc) (z : list Qc) (i j k : Z),
     Core.grid s1 = Core.grid s2 ->
     Core.in_range (Core.cells (Core.grid s1)) i j k = true ->
     i = Core.cell_index (Core.xmin (Core.grid s1)) (Core.dx (Core.grid s1))
                         (Core.xsource b) ->
     j = Core.cell_index (Core.ymin (Core.grid s1)) (Core.dy (Core.grid s1))
                         (Core.ysource b) ->
     Core.comp (Core.J (Core.update_mpi profile b s1 t zmin z)) Core.AZ i j k
     = Core.current profile b (Core.grid s1) t zmin (nth (Z.to_nat k) z 0%Qc) /\
     Core.comp (Core.J (Core.update_mpi profile b s2 t zmin z)) Core.AZ i j k
     = Core.comp (Core.J (Core.update_mpi profile b s1 t zmin z)) Core.AZ i j k).
Proof.
  split.
  - intros e d N ns n Hr Hn.
    destruct (time_loop_nth e d ns n) as (Hu & Hs).
    rewrite Hu, Hs, (range_nth n Hr Hn). split; reflexivity.
  - intros profile b s1 s2 t zmin z i j k Hg Hin Hi Hj.
    unfold Core.update_mpi. cbn [Core.J Core.comp].
    rewrite <- Hg, <- Hi, <- Hj, Hin, !Z.eqb_refl. split; reflexivity.
Qed.

(** C8 at the second iteration of a three-step run, and for a solver
    before and after a step. *)
Lemma source_injected_witness :
  (nth_error (ScriptMPI.time_loop ScriptMPI.env_two_ranks ScriptMPI.domain_two_ranks
                                  [0; 1; 2]%Z) 2
   = Some (ScriptMPI.EUpdateMpi (PyFloat 0.5%float) 0%float
                                (ScriptMPI.z ScriptMPI.domain_two_ranks)) /\
   nth_error (ScriptMPI.time_loop ScriptMPI.env_two_ranks ScriptMPI.domain_two_ranks
                                  [0; 1; 2]%Z) 3
   = Some ScriptMPI.EOneStep) /\
  Core.comp (Core.J (Core.update_mpi Core.bump Core.beam_on_axis
                       (Core.one_step Core.solver_at_rest)
                       (Core.QcZ 0) (Core.QcZ 0) [Core.QcZ 0]))
            Core.AZ 12%Z 12%Z 0%Z
  = Core.comp (Core.J (Core.update_mpi Core.bump Core.beam_on_axis Core.solver_at_rest
                         (Core.QcZ 0) (Core.QcZ 0) [Core.QcZ 0]))
              Core.AZ 12%Z 12%Z 0%Z.
Proof.
  split.
  - apply (proj1 source_injected_before_step_from_time_only
             ScriptMPI.env_two_ranks ScriptMPI.domain_two_ranks 3%Z [0; 1; 2]%Z 1%nat).
    + reflexivity.
    + cbn. lia.
  - apply (proj2 source_injected_before_step_from_time_only
             Core.bump Core.beam_on_axis Core.solver_at_rest (Core.one_step Core.solver_at_rest)
             (Core.QcZ 0) (Core.QcZ 0) [Core.QcZ 0] 12%Z 12%Z 0%Z).
    + reflexivity.
    + reflexivity.
    + vm_compute. reflexivity.
    + vm_compute. reflexivity.
Defined.

End SourceFacts.


(* ================================================================== *)
(** * Further properties of the MPI driver                             *)
(* ================================================================== *)

Module MPIMore.
Import Py ScriptMPI.

(** The values of the domain setup, spelled out. *)
Lemma domain_setup_values (size rank : Z) (zmin zmax : float) :
  (2 <= size)%Z ->
  let m := (size - 1)%Z in
  let N := (Nz + Nz mod m)%Z in
  let h := PrimFloat.div (PrimFloat.sub zmax zmin) (float_of_Z N) in
  domain_setup size rank zmin zmax
  = Ok {| Nz_adj := N; dz := h; z := linspace zmin zmax (N + 1);
          Nz_mpi := (N / m)%Z;
          zmin_mpi := PrimFloat.mul (float_of_Z ((rank - 1) * (N / m))) h;
          zmax_mpi := PrimFloat.mul (float_of_Z (rank * (N / m))) h |}.
Proof.
  intros Hs m N h. subst m N h.
  unfold domain_setup, mod_int, floordiv_int, truediv_float.
  destruct (Z.eqb_spec (size - 1) 0) as [E|_]; [lia|]. cbn [bind].
  rewrite MPIFacts.float_of_Nz_nonzero
    by (apply MPIFacts.adjusted_Nz_range; lia).
  reflexivity.
Qed.

(** X1.  With two processes or more, the z-range of every rank ends, bit
    for bit, where the z-range of the next rank begins. *)
Theorem consecutive_slices_abut :
  forall (size rank : Z) (zmin zmax : float),
    (2 <= size)%Z ->
    exists d d',
      domain_setup size rank zmin zmax = Ok d /\
      domain_setup size (rank + 1) zmin zmax = Ok d' /\
      zmax_mpi d = zmin_mpi d'.
Proof.
  intros size rank zmin zmax Hs.
  rewrite !domain_setup_values by exact Hs.
  do 2 eexists. split; [reflexivity|]. split; [reflexivity|].
  cbn [zmax_mpi zmin_mpi].
  replace (rank + 1 - 1)%Z with rank by lia. reflexivity.
Qed.

(** X1 for ranks 2 and 3 of five processes. *)
Lemma consecutive_slices_witness :
  exists d d',
    domain_setup 5 2 0%float 142%float = Ok d /\
    domain_setup 5 (2 + 1) 0%float 142%float = Ok d' /\
    zmax_mpi d = zmin_mpi d'.
Proof.
  apply consecutive_slices_abut. lia.
Defined.

Lemma adjusted_mod (m : Z) :
  (1 <= m)%Z -> ((Nz + Nz mod m) mod m = 282 mod m)%Z.
Proof.
  intros Hm. unfold Nz. rewrite Z.add_mod_idemp_r by lia. reflexivity.
Qed.

Lemma total_of_equal_slices (k : nat) (start : nat) (f : nat -> float * float)
    (a n : Z) :
  total_local_cells
    (map (fun r => Some (a, n, fst (f r), snd (f r))) (seq start k))
  = (Z.of_nat k * n)%Z.
Proof.
  revert start. induction k as [|k IH]; intros start; [reflexivity|].
  cbn [seq map total_local_cells fold_right].
  change (fold_right _ 0%Z ?l) with (total_local_cells l).
  rewrite IH. lia.
Qed.

Lemma total_local_cells_value (size : Z) (zmin zmax : float) :
  (2 <= size)%Z ->
  total_local_cells (worker_slices size zmin zmax)
  = ((size - 1) * ((Nz + Nz mod (size - 1)) / (size - 1)))%Z.
Proof.
  intros Hs. unfold worker_slices.
  rewrite map_ext with
    (g := fun r =>
       Some ((Nz + Nz mod (size - 1))%Z,
             ((Nz + Nz mod (size - 1)) / (size - 1))%Z,
             fst (let h := PrimFloat.div (PrimFloat.sub zmax zmin)
                             (float_of_Z (Nz + Nz mod (size - 1))) in
                  (PrimFloat.mul (float_of_Z ((Z.of_nat r - 1)
                     * ((Nz + Nz mod (size - 1)) / (size - 1)))) h,
                   PrimFloat.mul (float_of_Z (Z.of_nat r
                     * ((Nz + Nz mod (size - 1)) / (size - 1)))) h)),
             snd (let h := PrimFloat.div (PrimFloat.sub zmax zmin)
                             (float_of_Z (Nz + Nz mod (size - 1))) in
                  (PrimFloat.mul (float_of_Z ((Z.of_nat r - 1)
                     * ((Nz + Nz mod (size - 1)) / (size - 1)))) h,
                   PrimFloat.mul (float_of_Z (Z.of_nat r
                     * ((Nz + Nz mod (size - 1)) / (size - 1)))) h)))).
  - rewrite total_of_equal_slices. rewrite Z2Nat.id by lia. reflexivity.
  - intros r. unfold slice_of. rewrite domain_setup_values by exact Hs.
    reflexivity.
Qed.

(** X2.  The cells handed to the worker ranks 1..size-1 fall short of the
    adjusted global count by [282 mod (size-1)]; they add up to it exactly
    when size-1 divides 282, that is for 1, 2, 3, 6, 47, 94, 141 or 282
    workers. *)
Theorem worker_cells_sum_iff_divides_282 :
  forall (size rank : Z) (zmin zmax : float),
    (2 <= size)%Z ->
    exists d,
      domain_setup size rank zmin zmax = Ok d /\
      total_local_cells (worker_slices size zmin zmax)
      = (Nz_adj d - 282 mod (size - 1))%Z /\
      (total_local_cells (worker_slices size zmin zmax) = Nz_adj d
       <-> (size - 1 | 282)%Z) /\
      ((size - 1 | 282)%Z
       <-> In (size - 1)%Z [1; 2; 3; 6; 47; 94; 141; 282]%Z).
Proof.
  intros size rank zmin zmax Hs.
  rewrite domain_setup_values by exact Hs.
  eexists. split; [reflexivity|]. cbn [Nz_adj].
  rewrite total_local_cells_value by exact Hs.
  set (m := (size - 1)%Z) in *.
  assert (Hm : (1 <= m)%Z) by (subst m; lia).
  assert (Hmod := adjusted_mod Hm).
  assert (Hdiv := Z.div_mod (Nz + Nz mod m) m ltac:(lia)).
  split; [lia|]. split.
  - rewrite <- Z.mod_divide by lia. lia.
  - split.
    + intros Hd.
      assert (Hle : (m <= 282)%Z) by (apply Z.divide_pos_le; [lia|exact Hd]).
      apply Z.mod_divide in Hd; [|lia].
      assert (Hfin : forallb
                (fun k => implb (282 mod Z.of_nat k =? 0)%Z
                   (existsb (Z.eqb (Z.of_nat k))
                            [1; 2; 3; 6; 47; 94; 141; 282]%Z))
                (seq 1 282) = true) by (vm_compute; reflexivity).
      rewrite forallb_forall in Hfin.
      specialize (Hfin (Z.to_nat m)).
      rewrite Z2Nat.id in Hfin by lia.
      rewrite Hd in Hfin. cbn [Z.eqb implb] in Hfin.
      assert (Hin : In (Z.to_nat m) (seq 1 282)) by (apply in_seq; lia).
      apply Hfin in Hin. apply existsb_exists in Hin.
      destruct Hin as (x & Hx & Heq). apply Z.eqb_eq in Heq. subst x.
      exact Hx.
    + cbn [In].
      intros [<- | [<- | [<- | [<- | [<- | [<- | [<- | [<- | []]]]]]]]];
        apply Z.mod_divide; try lia; reflexivity.
Qed.

(** X2 for seven processes: six workers of 24 cells, 144 in all. *)
Lemma worker_cells_sum_witness :
  exists d,
    domain_setup 7 1 0%float 1%float = Ok d /\
    total_local_cells (worker_slices 7 0%float 1%float)
    = (Nz_adj d - 282 mod (7 - 1))%Z /\
    (total_local_cells (worker_slices 7 0%float 1%float) = Nz_adj d
     <-> (7 - 1 | 282)%Z) /\
    ((7 - 1 | 282)%Z <-> In (7 - 1)%Z [1; 2; 3; 6; 47; 94; 141; 282]%Z).
Proof.
  apply worker_cells_sum_iff_divides_282. lia.
Defined.

(** X3.  A worker is handed no cell at all exactly when there are 284
    processes or more; then its z-range is empty (both ends are the same
    float) and the grid it asks for has zero cells along z. *)
Theorem empty_slices_from_284_processes :
  forall e : env,
    (2 <= size e)%Z ->
    exists d,
      domain_setup (size e) (rank e) (zmin e) (zmax e) = Ok d /\
      (Nz_mpi d = 0%Z <-> (284 <= size e)%Z) /\
      ((284 <= size e)%Z ->
       zmin_mpi d = zmax_mpi d /\
       (rank e <> 0%Z ->
        make_grid e d
        = EGridFIT3D (xmin e) (xmax e) (ymin e) (ymax e)
                     (zmin_mpi d) (zmin_mpi d) Nx Ny 0)).
Proof.
  intros e Hs.
  rewrite domain_setup_values by exact Hs.
  eexists. split; [reflexivity|]. cbn [Nz_mpi zmin_mpi zmax_mpi].
  remember (size e - 1)%Z as m eqn:Em.
  assert (Hm : (1 <= m)%Z) by lia.
  assert (Hr := MPIFacts.adjusted_Nz_range Hm).
  assert (Hq : ((Nz + Nz mod m) / m = 0 <-> 284 <= size e)%Z).
  { rewrite Z.div_small_iff by lia. unfold Nz in *.
    destruct (Z_lt_le_dec 141 m) as [Hbig|Hsmall].
    - rewrite (Z.mod_small 141 m) in * by lia. lia.
    - lia. }
  split; [exact Hq|].
  intros Hbig. apply Hq in Hbig. rewrite Hbig, !Z.mul_0_r.
  split; [reflexivity|].
  intros Hrank. unfold make_grid.
  destruct (Z.eqb_spec (rank e) 0) as [E0|_]; [contradiction|].
  reflexivity.
Qed.

(** X3 for rank 7 of 284 processes. *)
Lemma empty_slices_witness :
  exists d,
    domain_setup 284 7 0%float 1%float = Ok d /\
    (Nz_mpi d = 0%Z <-> (284 <= 284)%Z) /\
    ((284 <= 284)%Z ->
     zmin_mpi d = zmax_mpi d /\
     (7%Z <> 0%Z ->
      make_grid env_284 d
      = EGridFIT3D 0%float 1%float 0%float 1%float
                   (zmin_mpi d) (zmin_mpi d) Nx Ny 0)).
Proof.
  apply (empty_slices_from_284_processes env_284). cbn. lia.
Defined.

Lemma linspace_length (start stop : float) (num : Z) :
  (0 < num)%Z -> List.length (linspace start stop num) = Z.to_nat num.
Proof.
  intros Hn. unfold linspace.
  rewrite length_app, length_map, length_seq.
  destruct (Z.ltb_spec 0 num) as [_|Hle]; [|lia].
  cbn [List.length]. lia.
Qed.

Lemma linspace_last (start stop : float) (num : Z) (d : float) :
  (0 < num)%Z -> last (linspace start stop num) d = stop.
Proof.
  intros Hn. unfold linspace.
  destruct (Z.ltb_spec 0 num) as [_|Hle]; [|lia].
  apply last_last.
Qed.

(** X4.  The node array [z] that a rank hands to [update_mpi] is the
    global one: it has one node more than the adjusted global cell count,
    ends exactly at zmax, and is the same on every rank, as are the cell
    size and the two cell counts; only the two ends of the slice depend on
    the rank. *)
Theorem every_rank_holds_the_global_nodes :
  forall (size r1 r2 : Z) (zmin zmax : float),
    (2 <= size)%Z ->
    exists d1 d2,
      domain_setup size r1 zmin zmax = Ok d1 /\
      domain_setup size r2 zmin zmax = Ok d2 /\
      z d1 = z d2 /\ dz d1 = dz d2 /\
      Nz_adj d1 = Nz_adj d2 /\ Nz_mpi d1 = Nz_mpi d2 /\
      List.length (z d1) = Z.to_nat (Nz_adj d1 + 1) /\
      last (z d1) zmin = zmax.
Proof.
  intros size r1 r2 zmin zmax Hs.
  rewrite !domain_setup_values by exact Hs.
  do 2 eexists. do 2 (split; [reflexivity|]).
  cbn [z dz Nz_adj Nz_mpi]. do 4 (split; [reflexivity|]).
  assert (Hr := @MPIFacts.adjusted_Nz_range (size - 1) ltac:(lia)).
  split; [apply linspace_length | apply linspace_last]; lia.
Qed.

(** X4 for ranks 1 and 4 of five processes. *)
Lemma global_nodes_witness :
  exists d1 d2,
    domain_setup 5 1 0%float 142%float = Ok d1 /\
    domain_setup 5 4 0%float 142%float = Ok d2 /\
    z d1 = z d2 /\ dz d1 = dz d2 /\
    Nz_adj d1 = Nz_adj d2 /\ Nz_mpi d1 = Nz_mpi d2 /\
    List.length (z d1) = Z.to_nat (Nz_adj d1 + 1) /\
    last (z d1) 0%float = 142%float.
Proof.
  apply every_rank_holds_the_global_nodes. lia.
Defined.




End MPIMore.


(* ================================================================== *)
(** * Properties of the frame names and the plotting loops             *)
(* ================================================================== *)

Module LoopFacts.
Import Ascii Frames CavityLoops.
Local Open Scope string_scope.

(** ** Strings *)

Lemma length_append (a b : string) :
  String.length (a ++ b) = (String.length a + String.length b)%nat.
Proof. induction a as [|c a IH]; cbn; [reflexivity | rewrite IH; reflexivity]. Qed.

Lemma append_empty_r (a : string) : a ++ "" = a.
Proof. induction a as [|c a IH]; cbn; [reflexivity | rewrite IH; reflexivity]. Qed.

Lemma append_cancel_l (p a b : string) : p ++ a = p ++ b -> a = b.
Proof.
  induction p as [|c p IH]; cbn; [auto|]. intros [= Heq]. auto.
Qed.

Lemma append_cancel_r (s a b : string) : a ++ s = b ++ s -> a = b.
Proof.
  intros Heq.
  assert (Hlen : String.length a = String.length b).
  { apply (f_equal String.length) in Heq. rewrite !length_append in Heq. lia. }
  revert b Heq Hlen. induction a as [|c a IH]; intros [|c' b] Heq Hlen;
    try discriminate Hlen; [reflexivity|].
  cbn in Heq, Hlen. injection Heq as -> Heq. f_equal. apply IH; [exact Heq|lia].
Qed.






(** ** Decoding a frame number *)

Lemma value_str (n : Z) : (0 <= n)%Z -> value (str n) = Some n.
Proof.
  intros Hn. unfold value, str.
  destruct n as [|p|p]; [reflexivity| |lia].
  cbn [Z.to_int DecimalString.NilZero.string_of_int].
  assert (Hv : Z.of_uint (Pos.to_uint p) = Zpos p).
  { exact (DecimalZ.of_to (Zpos p)). }
  unfold DecimalString.NilZero.string_of_uint.
  destruct (Pos.to_uint p) eqn:Hd;
    try (rewrite <- Hd, DecimalString.NilEmpty.usu; cbn [option_map];
         rewrite Hd; f_equal; exact Hv).
  cbn in Hv. discriminate Hv.
Qed.

Lemma value_zeros (k : nat) (s : string) : value (zeros k ++ s) = value s.
Proof.
  induction k as [|k IH]; [reflexivity|].
  unfold value in *. cbn [zeros append DecimalString.NilEmpty.uint_of_string].
  destruct (DecimalString.NilEmpty.uint_of_string (zeros k ++ s)) as [d|];
    destruct (DecimalString.NilEmpty.uint_of_string s) as [d'|];
    cbn in *; try discriminate; try reflexivity.
  exact IH.
Qed.

Lemma value_no_sign (c : ascii) (s : string) (v : Z) :
  value (String c s) = Some v -> is_sign c = false.
Proof.
  unfold value, is_sign. cbn [DecimalString.NilEmpty.uint_of_string].
  destruct (DecimalString.NilEmpty.uint_of_string s) as [d|];
    [|discriminate].
  destruct (Ascii.eqb_spec c "+"%char) as [->|_]; [discriminate|].
  destruct (Ascii.eqb_spec c "-"%char) as [->|_]; [discriminate|].
  reflexivity.
Qed.

Lemma value_zfill (n : Z) (w : nat) :
  (0 <= n)%Z -> value (zfill (str n) w) = Some n.
Proof.
  intros Hn. assert (Hv := value_str Hn). unfold zfill.
  destruct (w <=? String.length (str n))%nat; [exact Hv|].
  destruct (str n) as [|c s] eqn:Hs.
  - rewrite <- (append_empty_r (zeros _)), value_zeros. exact Hv.
  - rewrite (value_no_sign _ _ Hv). rewrite value_zeros. exact Hv.
Qed.

Lemma frame_injective (dir : string) (m n : Z) :
  (0 <= m)%Z -> (0 <= n)%Z -> frame dir m = frame dir n -> m = n.
Proof.
  intros Hm Hn Heq. unfold frame in Heq.
  apply append_cancel_l, append_cancel_r in Heq.
  assert (Hv : value (zfill (str m) 4) = value (zfill (str n) 4))
    by (rewrite Heq; reflexivity).
  rewrite !value_zfill in Hv by assumption. injection Hv as ->. reflexivity.
Qed.

(** X6.  Two frames of one directory with different (non-negative)
    numbers never share a file name, also beyond four digits, and the
    number can be read back off the digits of the name: the zero padding
    loses nothing. *)
Theorem frame_names_distinct :
  forall (dir : string) (m n : Z),
    (0 <= m)%Z -> (0 <= n)%Z ->
    value (zfill (str n) 4) = Some n /\
    (frame dir m = frame dir n -> m = n).
Proof.
  intros dir m n Hm Hn. split.
  - apply value_zfill. exact Hn.
  - apply frame_injective; assumption.
Qed.

(** X6 at frames 7 and 12345. *)
Lemma frame_names_distinct_witness :
  value (zfill (str 12345) 4) = Some 12345%Z /\
  (frame "imgE/" 7 = frame "imgE/" 12345 -> 7%Z = 12345%Z).
Proof.
  apply (@frame_names_distinct "imgE/" 7 12345); lia.
Defined.






(** ** The loops *)

Local Open Scope list_scope.

Lemma for_each_iterations (body : Z -> option (list event))
    (hd : list event) (dir : string) (ns : list Z) :
  (forall n, body n = Some (iteration hd dir n)) ->
  for_each body ns = Some (flat_map (iteration hd dir) ns).
Proof.
  intros Hb. induction ns as [|n ns IH]; [reflexivity|].
  cbn [for_each flat_map]. rewrite Hb, IH. reflexivity.
Qed.

Lemma saved_app (l l' : list event) : saved (l ++ l') = saved l ++ saved l'.
Proof. unfold saved. apply flat_map_app. Qed.

Lemma steps_of_app (s : solver_id) (l l' : list event) :
  steps_of s (l ++ l') = (steps_of s l + steps_of s l')%nat.
Proof. unfold steps_of. rewrite filter_app, length_app. reflexivity. Qed.

Lemma saved_iterations (hd : list event) (dir : string) (ns : list Z) :
  saved hd = [] ->
  saved (flat_map (iteration hd dir) ns) = map (frame dir) ns.
Proof.
  intros Hhd. induction ns as [|n ns IH]; [reflexivity|].
  cbn [flat_map map]. unfold iteration at 1.
  rewrite !saved_app, Hhd, IH. reflexivity.
Qed.

Lemma steps_iterations (s : solver_id) (hd : list event) (dir : string)
    (ns : list Z) :
  steps_of s hd = 1%nat ->
  steps_of s (flat_map (iteration hd dir) ns) = List.length ns.
Proof.
  intros Hhd. induction ns as [|n ns IH]; [reflexivity|].
  cbn [flat_map List.length]. unfold iteration at 1.
  rewrite !steps_of_app, Hhd, IH. reflexivity.
Qed.


Lemma range_split (Nt n : Z) :
  (0 <= n < Nt)%Z ->
  map Z.of_nat (seq 0 (Z.to_nat Nt))
  = map Z.of_nat (seq 0 (Z.to_nat n)) ++ n
    :: map Z.of_nat (seq (S (Z.to_nat n)) (Z.to_nat Nt - S (Z.to_nat n))).
Proof.
  intros Hn.
  replace (Z.to_nat Nt) with (Z.to_nat n + S (Z.to_nat Nt - S (Z.to_nat n)))%nat
    at 1 by lia.
  rewrite seq_app, map_app. cbn [seq map Nat.add]. rewrite Z2Nat.id by lia.
  reflexivity.
Qed.

Lemma range_frames_NoDup (dir : string) (Nt : Z) :
  NoDup (map (frame dir) (map Z.of_nat (seq 0 (Z.to_nat Nt)))).
Proof.
  apply NoDup_map_NoDup_ForallPairs.
  - intros a b Ha Hb Heq.
    apply in_map_iff in Ha as (i & <- & _). apply in_map_iff in Hb as (j & <- & _).
    apply (@frame_injective dir); [lia | lia | exact Heq].
  - apply NoDup_map_NoDup_ForallPairs; [|apply seq_NoDup].
    intros i j _ _ Hij. lia.
Qed.

(** The frame of iteration [n] is saved once each solver has stepped
    [n + 1] times. *)
Lemma frame_after_steps (hd : list event) (dir : string) (Nt n : Z) :
  steps_of FIT_solver hd = 1%nat -> steps_of FDTD_solver hd = 1%nat ->
  (0 <= n < Nt)%Z ->
  exists pre post,
    flat_map (iteration hd dir) (map Z.of_nat (seq 0 (Z.to_nat Nt)))
    = pre ++ ESavefig (frame dir n) :: post /\
    steps_of FIT_solver pre = S (Z.to_nat n) /\
    steps_of FDTD_solver pre = S (Z.to_nat n).
Proof.
  intros H1 H2 Hn.
  rewrite (range_split Hn), flat_map_app. cbn [flat_map].
  exists (flat_map (iteration hd dir) (map Z.of_nat (seq 0 (Z.to_nat n))) ++ hd).
  eexists. split.
  - unfold iteration at 2. rewrite <- !app_assoc. cbn [app]. reflexivity.
  - rewrite !steps_of_app, !steps_iterations, H1, H2, length_map, length_seq
      by assumption.
    split; lia.
Qed.


Lemma cube_body_iteration (n : Z) :
  cube_body n
  = Some (iteration
            [EStep FIT_solver; EStep FDTD_solver;
             EImshow FIT_solver field_E "z"; EImshow FDTD_solver field_E "z"]
            "img/" n).
Proof. reflexivity. Qed.




(** X10.  The loop of script_cube_cav_fit.py, for any number of
    iterations: it saves the frames [img/0000.png], ... in order under
    distinct names, shows only the z component of the two E fields, and
    saves frame [n] after each solver has stepped exactly [n + 1]
    times. *)
Theorem cube_loop_frames :
  forall Nt : Z,
    exists l,
      cube_loop Nt = Some l /\
      saved l = map (frame "img/") (map Z.of_nat (seq 0 (Z.to_nat Nt))) /\
      NoDup (saved l) /\
      (forall s f c, In (EImshow s f c) l -> f = field_E /\ c = "z"%string) /\
      (forall n : Z,
         (0 <= n < Nt)%Z ->
         exists pre post,
           l = pre ++ ESavefig (frame "img/" n) :: post /\
           steps_of FIT_solver pre = S (Z.to_nat n) /\
           steps_of FDTD_solver pre = S (Z.to_nat n)).
Proof.
  intros Nt. unfold cube_loop. cbn [Py.range].
  rewrite (@for_each_iterations _ _ _ _ cube_body_iteration).
  eexists. split; [reflexivity|].
  rewrite saved_iterations by reflexivity.
  split; [reflexivity|]. split; [apply range_frames_NoDup|]. split.
  - intros s f c Hin. apply in_flat_map in Hin as (n & _ & Hin).
    cbn in Hin.
    destruct Hin as [Hin|[Hin|[Hin|[Hin|[Hin|[]]]]]]; try discriminate Hin;
      injection Hin as <- <- <-; auto.
  - intros n Hn. apply frame_after_steps; auto.
Qed.

(** X10 for the one iteration the script runs. *)
Lemma cube_loop_witness :
  exists pre post,
    (match cube_loop ScriptCube.Nt with Some l => l | None => [] end)
    = pre ++ ESavefig (frame "img/" 0) :: post /\
    steps_of FIT_solver pre = 1%nat /\ steps_of FDTD_solver pre = 1%nat.
Proof.
  destruct (cube_loop_frames ScriptCube.Nt) as (l & Hl & _ & _ & _ & Hf).
  rewrite Hl. apply (Hf 0%Z). unfold ScriptCube.Nt. lia.
Defined.

End LoopFacts.
